(** * tcptunnel: connection lifecycle and shutdown coordination

    A shallow embedding of the tunnel client of hadi77ir/tcptunnel
    (struct [client] with [newClient], [connCopy], [Run], [serve],
    [handleConn], [shutdown] and [duplexCopy]) and the properties of its
    specification.

    Sequential code is embedded as functions.  The goroutines of the program
    are embedded as one executable interleaving semantics: every goroutine
    has a program counter named after the statement it is about to execute,
    and [exec] runs one statement of one goroutine.  Whatever the environment
    decides (the result of [url.Parse], [net.Listen], [Accept], [Dial],
    [io.Copy], the arrival of a signal, the 10 second timer) is carried by the
    action that is executed.  The numbers in the comments of the program
    counters are the lines of the client's source file.

    Two libraries decide what the program does and are modelled after their
    documented behaviour: [io.Copy] of Go's standard library, as its copy
    loop, and [log.Fatalf] of logrus, which logs and then ends the process
    with [os.Exit(1)]. *)

From Stdlib Require Import ZArith List String Bool Lia.
From Stdlib Require Import Strings.Byte.
From stdpp Require Import base tactics option list.

Import ListNotations.
Local Open Scope string_scope.
Local Open Scope Z_scope.
Local Open Scope list_scope.

Set Default Proof Using "Type".

(** ** Errors *)

(** Go's [error] values as far as the program distinguishes them:
    [*net.OpError] (with its [Op] tag) against every other dynamic type. *)
Inductive error : Type :=
| OpError (Op : string) (Net : string) (Err : string)
| ErrorString (s : string).

Definition error_eqb (a b : error) : bool :=
  match a, b with
  | OpError o1 n1 e1, OpError o2 n2 e2 =>
      String.eqb o1 o2 && String.eqb n1 n2 && String.eqb e1 e2
  | ErrorString s1, ErrorString s2 => String.eqb s1 s2
  | _, _ => false
  end.

(** [err.Error()]; for an [OpError] the source and address parts are left
    out of the model. *)
Definition Error_ (e : error) : string :=
  match e with
  | OpError op net err =>
      (op ++ (if String.eqb net EmptyString then EmptyString else " " ++ net)
       ++ ": " ++ err)%string
  | ErrorString s => s
  end.

(** The sentinels of package [io]. *)
Definition EOF : error := ErrorString "EOF".
Definition ErrShortWrite : error := ErrorString "short write".
Definition errInvalidWrite : error := ErrorString "invalid write result".

(** ** The logger *)

Inductive level : Type := FatalLevel | ErrorLevel | WarnLevel | InfoLevel.

(** One call of [log.Infof], [log.Warnf], [log.Errorf] or [log.Fatalf]:
    the level, the format string and the formatted arguments. *)
Record entry : Type := Entry {
  lvl : level;
  fmt : string;
  args : list string
}.

(** ** Connections and [io.Copy] *)

(** A [net.Conn] as the program uses it: the two addresses it prints. *)
Record conn : Type := Conn {
  RemoteAddr : string;
  LocalAddr : string
}.

(** What one call of [src.Read(buf)] returns: the bytes read and the error. *)
Definition read_result : Type := list byte * option error.

(** The writing side of a TCP connection: the bytes the peer has received so
    far, and how many more bytes it accepts before [Write] fails with
    [wfail] ([None]: it never fails). *)
Record writer : Type := Writer {
  received : list byte;
  quota : option nat;
  wfail : error
}.

(** [dst.Write(p)]: a TCP write delivers all of [p], or delivers the part
    that still fits and returns the error. *)
Definition Write (p : list byte) (w : writer) : nat * option error * writer :=
  match quota w with
  | None => (length p, None, Writer (received w ++ p) None (wfail w))
  | Some k =>
      if (length p <=? k)%nat
      then (length p, None,
            Writer (received w ++ p) (Some (k - length p)%nat) (wfail w))
      else (k, Some (wfail w),
            Writer (received w ++ firstn k p) (Some 0%nat) (wfail w))
  end.

(** [io.Copy(dst, src)], the copy loop of Go's package [io].  The source is
    the list of results its successive [Read] calls give; when the list is
    used up the next [Read] never returns, and neither does [io.Copy]
    ([None]).  Otherwise the result is [(written, err)]. *)
Fixpoint copyBuffer (src : list read_result) (dst : writer) (written : Z)
  : writer * option (Z * option error) :=
  match src with
  | [] => (dst, None)
  | (p, er) :: rest =>
      let nr := length p in
      let after_read (dst : writer) (written : Z) :=
        match er with
        | Some e =>
            (dst, Some (written, if error_eqb e EOF then None else Some e))
        | None => copyBuffer rest dst written
        end in
      if (0 <? nr)%nat then
        let '(nw, ew, dst') := Write p dst in
        let '(nw, ew) :=
          if (nr <? nw)%nat
          then (0%nat, Some (default errInvalidWrite ew))
          else (nw, ew) in
        let written := written + Z.of_nat nw in
        match ew with
        | Some e => (dst', Some (written, Some e))
        | None =>
            if negb (nr =? nw)%nat
            then (dst', Some (written, Some ErrShortWrite))
            else after_read dst' written
        end
      else after_read dst written
  end.

Definition io_Copy (dst : writer) (src : list read_result)
  : writer * option (Z * option error) :=
  copyBuffer src dst 0.



(** ** [connCopy]: the classification of the copy error *)

(** The [switch] of [connCopy]: a [*net.OpError] whose [Op] is "readfrom" or
    "read" makes the function return before it logs. *)
Definition suppressed (err : error) : bool :=
  match err with
  | OpError op _ _ => String.eqb op "readfrom" || String.eqb op "read"
  | ErrorString _ => false
  end.

(** What [connCopy(dst, src, copyDone)] logs for the error of [io.Copy]. *)
Definition connCopy_log (dst src : conn) (err : option error) : list entry :=
  match err with
  | None => []
  | Some e =>
      if suppressed e then []
      else [Entry ErrorLevel "failed to copy connection from %s to %s: %s"
              [RemoteAddr src; RemoteAddr dst; Error_ e]]
  end.

(** The body of [connCopy] before its deferred calls: one call of [io.Copy]
    and the classification of its error.  [None] when [io.Copy] has not
    returned. *)
Definition connCopy_body (dst src : conn) (w : writer) (rd : list read_result)
  : option (writer * list entry) :=
  match io_Copy w rd with
  | (w', Some (_, err)) => Some (w', connCopy_log dst src err)
  | (_, None) => None
  end.

(** ** Channels, the wait group and the process *)

(** The outcome of one statement: it completes, it cannot proceed yet, or
    it panics. *)
Inductive result (A : Type) : Type :=
| Ok (a : A)
| Block
| Panic (msg : string).
Arguments Ok {A} a.
Arguments Block {A}.
Arguments Panic {A} msg.

(** A Go channel: its buffer, its capacity and whether it has been closed. *)
Record chan (A : Type) : Type := Chan {
  ch_buf : list A;
  ch_cap : nat;
  ch_closed : bool
}.
Arguments Chan {A} ch_buf ch_cap ch_closed.
Arguments ch_buf {A} c.
Arguments ch_cap {A} c.
Arguments ch_closed {A} c.

(** [make(chan A, cap)] *)
Definition make_chan {A : Type} (cap : nat) : chan A := Chan [] cap false.

(** [close(c)]: closing a closed channel panics. *)
Definition chan_close {A : Type} (c : chan A) : result (chan A) :=
  if ch_closed c then Panic "close of closed channel"
  else Ok (Chan (ch_buf c) (ch_cap c) true).

(** [c <- v] on a buffered channel: blocks while the buffer is full (no
    statement of the program receives by rendezvous from a channel that is
    sent on), panics when the channel is closed. *)
Definition chan_send {A : Type} (v : A) (c : chan A) : result (chan A) :=
  if ch_closed c then Panic "send on closed channel"
  else if (length (ch_buf c) <? ch_cap c)%nat
       then Ok (Chan (ch_buf c ++ [v]) (ch_cap c) false)
       else Block.

(** [<-c]: the oldest buffered value; the zero value ([None]) once the
    channel is closed and drained; blocks otherwise. *)
Definition chan_recv {A : Type} (c : chan A) : result (option A * chan A) :=
  match ch_buf c with
  | v :: rest => Ok (Some v, Chan rest (ch_cap c) (ch_closed c))
  | [] => if ch_closed c then Ok (None, c) else Block
  end.

(** A [case <-c:] of a [select] that only waits for [c] to be closed. *)
Definition chan_ready {A : Type} (c : chan A) : bool :=
  match chan_recv c with Ok _ => true | _ => false end.

Inductive Signal : Type := Interrupt | Kill.

(** [time.Duration] is an [int64]; its products wrap around. *)
Definition wrap64 (z : Z) : Z := (z + 2 ^ 63) mod 2 ^ 64 - 2 ^ 63.
Definition Second : Z := 1000000000.

(** [struct client] *)
Record client : Type := Client {
  listenAddress : string;
  targetAddress : string;
  proxyAddress : string;
  keepAlivePeriod : Z;
  dialTimeout : Z;
  wg : Z;
  errChan : chan (option error);
  signal : chan Signal;
  done : chan unit
}.

Definition newClient (listenAddress targetAddress proxyAddress : string)
    (dialTimeout keepAlivePeriod : Z) (sigChan : chan Signal) : client :=
  {| listenAddress := listenAddress;
     targetAddress := targetAddress;
     proxyAddress := proxyAddress;
     keepAlivePeriod := wrap64 (dialTimeout * Second);
     dialTimeout := wrap64 (keepAlivePeriod * Second);
     wg := 0;
     errChan := make_chan 1;
     signal := sigChan;
     done := make_chan 0 |}.

Definition set_wg (v : Z) (c : client) : client :=
  Client (listenAddress c) (targetAddress c) (proxyAddress c)
    (keepAlivePeriod c) (dialTimeout c) v (errChan c) (signal c) (done c).
Definition set_errChan (v : chan (option error)) (c : client) : client :=
  Client (listenAddress c) (targetAddress c) (proxyAddress c)
    (keepAlivePeriod c) (dialTimeout c) (wg c) v (signal c) (done c).
Definition set_signal (v : chan Signal) (c : client) : client :=
  Client (listenAddress c) (targetAddress c) (proxyAddress c)
    (keepAlivePeriod c) (dialTimeout c) (wg c) (errChan c) v (done c).
Definition set_done (v : chan unit) (c : client) : client :=
  Client (listenAddress c) (targetAddress c) (proxyAddress c)
    (keepAlivePeriod c) (dialTimeout c) (wg c) (errChan c) (signal c) v.

(** [c.wg.Add(n)]; a counter that would become negative panics. *)
Definition wg_Add (n : Z) (c : client) : result client :=
  if wg c + n <? 0 then Panic "sync: negative WaitGroup counter"
  else Ok (set_wg (wg c + n) c).

(** [shutdown]: return when [done] is already closed, close it otherwise. *)
Definition shutdown (c : client) : result client :=
  if chan_ready (done c) then Ok c
  else match chan_close (done c) with
       | Ok d => Ok (set_done d c)
       | Block => Block
       | Panic m => Panic m
       end.

(** [n] calls of [shutdown] in a row; a panic or a block ends the row. *)
Fixpoint shutdown_times (n : nat) (c : client) : result client :=
  match n with
  | O => Ok c
  | S n' =>
      match shutdown c with
      | Ok c' => shutdown_times n' c'
      | Block => Block
      | Panic m => Panic m
      end
  end.

(** ** The goroutines *)

(** [*url.URL] and [proxy.Dialer] as far as [Run] handles them. *)
Record URL : Type := Url { Scheme : string; Host : string }.

Inductive Dialer : Type :=
| Direct
| FromURL (u : URL) (forward : Dialer).

Inductive listener : Type := NotListening | Listening | ListenerClosed.

(** How the process stands: running, ended by [os.Exit] (which is how
    logrus' [log.Fatalf] ends after it has logged), or ended by a panic. *)
Inductive status : Type :=
| Running
| Exited (code : Z)
| Panicked (msg : string).

(** The statement [Run] is about to execute. *)
Inductive run_pc : Type :=
| RunParse                           (* 80: if c.proxyAddress is not empty *)
| RunListen (proxyURL : option URL)  (* 88: net.Listen *)
| RunFromURL (proxyURL : option URL) (* 95: dialer, proxy.FromURL *)
| RunGoServe                         (* 109: go c.serve(listener, dialer) *)
| RunSelect                          (* 112: select signal / done *)
| RunShutdown                        (* 121: c.shutdown() *)
| RunCloseListener                   (* 123: listener.Close() *)
| RunGoWait                          (* 128: ch, go func() *)
| RunSelectWait                      (* 134: select ch / time.After *)
| RunRecvErr                         (* 139: return <-c.errChan *)
| RunReturned (err : option error)   (* Run has returned err *)
| RunFatalParse (err : error)        (* 83: log.Fatalf ended the process *)
| RunFatalListen (err : error)       (* 90 *)
| RunFatalProxy (err : error).       (* 104 *)

(** The statement [serve] is about to execute. *)
Inductive serve_pc : Type :=
| ServeNotStarted
| ServeAccept                        (* 146: listener.Accept() *)
| ServeDial (accepted : conn)        (* 154: dialer.Dial *)
| ServeAdd (accepted dialed : conn)  (* 161: c.wg.Add(1) *)
| ServeGo (accepted dialed : conn)   (* 163: go c.handleConn *)
| ServeFatal (err : error).          (* 148: log.Fatalf ended the process *)

(** The goroutine of [Run] that waits for the wait group. *)
Inductive wait_pc : Type :=
| WaitNotStarted
| WaitWait                           (* 131: c.wg.Wait() *)
| WaitClose                          (* 130: defer close(ch) *)
| WaitEnd.

Inductive handleConn_pc : Type :=
| HCLog                              (* 172: log.Infof *)
| HCAdd                              (* 174: ch, c.wg.Add(1) *)
| HCGo                               (* 176: go c.duplexCopy *)
| HCSelect                           (* 177: select done / ch *)
| HCCloseRemote                      (* 170: defer remote.Close() *)
| HCCloseAccepted                    (* 169: defer accepted.Close() *)
| HCDone                             (* 168: defer c.wg.Done() *)
| HCEnd.

Inductive duplexCopy_pc : Type :=
| DCNotStarted
| DCAdd                              (* 197: copyDone, c.wg.Add(2) *)
| DCGo1                              (* 200: go c.connCopy(rConn, conn) *)
| DCGo2                              (* 201: go c.connCopy(conn, rConn) *)
| DCRecv                             (* 203: <-copyDone *)
| DCCloseCh                          (* 196: defer close(ch) *)
| DCDone                             (* 193: defer c.wg.Done() *)
| DCEnd.

Inductive connCopy_pc : Type :=
| CCNotStarted
| CCCopy                             (* 62: io.Copy and the switch *)
| CCSend                             (* 59: defer copyDone <- struct{}{} *)
| CCDone                             (* 58: defer c.wg.Done() *)
| CCEnd.

(** The tasks of one session and its two connections. *)
Inductive task : Type := THandleConn | TDuplexCopy | TCopyOut | TCopyIn.
Inductive side : Type := Accepted | Remote.

Definition task_eqb (a b : task) : bool :=
  match a, b with
  | THandleConn, THandleConn | TDuplexCopy, TDuplexCopy
  | TCopyOut, TCopyOut | TCopyIn, TCopyIn => true
  | _, _ => false
  end.


(** One tunnel session: the goroutine of [handleConn], the one of
    [duplexCopy] it starts, and the two of [connCopy]: [cc_out] is
    [connCopy(rConn, conn, copyDone)], from the accepted connection to the
    remote one, [cc_in] is [connCopy(conn, rConn, copyDone)].  [closes]
    lists the calls of [Close] on its two connections and [dones] the calls
    of [c.wg.Done()] by its tasks, oldest first. *)
Record session : Type := Session {
  accepted : conn;
  remote : conn;
  hc : handleConn_pc;
  dc : duplexCopy_pc;
  cc_out : connCopy_pc;
  cc_in : connCopy_pc;
  ch : chan unit;
  copyDone : chan unit;
  closes : list side;
  dones : list task
}.

Definition set_hc (v : handleConn_pc) (s : session) : session :=
  Session (accepted s) (remote s) v (dc s) (cc_out s) (cc_in s) (ch s)
    (copyDone s) (closes s) (dones s).
Definition set_dc (v : duplexCopy_pc) (s : session) : session :=
  Session (accepted s) (remote s) (hc s) v (cc_out s) (cc_in s) (ch s)
    (copyDone s) (closes s) (dones s).
Definition set_cc_out (v : connCopy_pc) (s : session) : session :=
  Session (accepted s) (remote s) (hc s) (dc s) v (cc_in s) (ch s)
    (copyDone s) (closes s) (dones s).
Definition set_cc_in (v : connCopy_pc) (s : session) : session :=
  Session (accepted s) (remote s) (hc s) (dc s) (cc_out s) v (ch s)
    (copyDone s) (closes s) (dones s).
Definition set_ch (v : chan unit) (s : session) : session :=
  Session (accepted s) (remote s) (hc s) (dc s) (cc_out s) (cc_in s) v
    (copyDone s) (closes s) (dones s).
Definition set_copyDone (v : chan unit) (s : session) : session :=
  Session (accepted s) (remote s) (hc s) (dc s) (cc_out s) (cc_in s) (ch s)
    v (closes s) (dones s).
Definition add_close (v : side) (s : session) : session :=
  Session (accepted s) (remote s) (hc s) (dc s) (cc_out s) (cc_in s) (ch s)
    (copyDone s) (closes s ++ [v]) (dones s).
Definition add_done (v : task) (s : session) : session :=
  Session (accepted s) (remote s) (hc s) (dc s) (cc_out s) (cc_in s) (ch s)
    (copyDone s) (closes s) (dones s ++ [v]).

(** The session [serve] starts with [go c.handleConn(accepted, dialed)]. *)
Definition new_session (accepted dialed : conn) : session :=
  Session accepted dialed HCLog DCNotStarted CCNotStarted CCNotStarted
    (make_chan 0) (make_chan 2) [] [].

(** The whole process: the client, the logger's output, the listener, the
    dialer [Run] has built, the program counters of the goroutines of [Run],
    [serve] and the waiting goroutine with its channel [ch], the sessions in
    the order [serve] started them, and the accepted connections [serve]
    closed because the dial failed. *)
Record state : Type := State {
  cl : client;
  proc : status;
  logs : list entry;
  lstn : listener;
  dialer : option Dialer;
  run : run_pc;
  srv : serve_pc;
  wt : wait_pc;
  wch : chan unit;
  sessions : list session;
  refused : list conn
}.

Definition set_cl (v : client) (st : state) : state :=
  State v (proc st) (logs st) (lstn st) (dialer st) (run st) (srv st) (wt st)
    (wch st) (sessions st) (refused st).
Definition set_proc (v : status) (st : state) : state :=
  State (cl st) v (logs st) (lstn st) (dialer st) (run st) (srv st) (wt st)
    (wch st) (sessions st) (refused st).
Definition add_logs (v : list entry) (st : state) : state :=
  State (cl st) (proc st) (logs st ++ v) (lstn st) (dialer st) (run st)
    (srv st) (wt st) (wch st) (sessions st) (refused st).
Definition set_lstn (v : listener) (st : state) : state :=
  State (cl st) (proc st) (logs st) v (dialer st) (run st) (srv st) (wt st)
    (wch st) (sessions st) (refused st).
Definition set_dialer (v : option Dialer) (st : state) : state :=
  State (cl st) (proc st) (logs st) (lstn st) v (run st) (srv st) (wt st)
    (wch st) (sessions st) (refused st).
Definition set_run (v : run_pc) (st : state) : state :=
  State (cl st) (proc st) (logs st) (lstn st) (dialer st) v (srv st) (wt st)
    (wch st) (sessions st) (refused st).
Definition set_srv (v : serve_pc) (st : state) : state :=
  State (cl st) (proc st) (logs st) (lstn st) (dialer st) (run st) v (wt st)
    (wch st) (sessions st) (refused st).
Definition set_wt (v : wait_pc) (st : state) : state :=
  State (cl st) (proc st) (logs st) (lstn st) (dialer st) (run st) (srv st) v
    (wch st) (sessions st) (refused st).
Definition set_wch (v : chan unit) (st : state) : state :=
  State (cl st) (proc st) (logs st) (lstn st) (dialer st) (run st) (srv st)
    (wt st) v (sessions st) (refused st).
Definition set_sessions (v : list session) (st : state) : state :=
  State (cl st) (proc st) (logs st) (lstn st) (dialer st) (run st) (srv st)
    (wt st) (wch st) v (refused st).
Definition add_refused (v : conn) (st : state) : state :=
  State (cl st) (proc st) (logs st) (lstn st) (dialer st) (run st) (srv st)
    (wt st) (wch st) (sessions st) (refused st ++ [v]).

Definition Infof (f : string) (a : list string) : state -> state :=
  add_logs [Entry InfoLevel f a].
Definition Warnf (f : string) (a : list string) : state -> state :=
  add_logs [Entry WarnLevel f a].
Definition Errorf (f : string) (a : list string) : state -> state :=
  add_logs [Entry ErrorLevel f a].
(** logrus' [Fatalf] logs and then calls [os.Exit(1)]: the statement after
    it, [return err], is never executed. *)
Definition Fatalf (f : string) (a : list string) (st : state) : state :=
  set_proc (Exited 1) (add_logs [Entry FatalLevel f a] st).

(** Apply a statement on the client to the process; a panic ends it. *)
Definition on_client (r : result client) (st : state) : option state :=
  match r with
  | Ok c => Some (set_cl c st)
  | Block => None
  | Panic m => Some (set_proc (Panicked m) st)
  end.

(** *** The statements of one session *)

Inductive direction : Type := Out | In_.

Definition cc (d : direction) (s : session) : connCopy_pc :=
  match d with Out => cc_out s | In_ => cc_in s end.
Definition set_cc (d : direction) : connCopy_pc -> session -> session :=
  match d with Out => set_cc_out | In_ => set_cc_in end.
Definition copy_task (d : direction) : task :=
  match d with Out => TCopyOut | In_ => TCopyIn end.
(** [duplexCopy(conn, rConn, ch)] is called with the accepted and the remote
    connection and starts [connCopy(rConn, conn)] and
    [connCopy(conn, rConn)]. *)
Definition cc_dst (d : direction) (s : session) : conn :=
  match d with Out => remote s | In_ => accepted s end.
Definition cc_src (d : direction) (s : session) : conn :=
  match d with Out => accepted s | In_ => remote s end.

Inductive session_action : Type :=
| AHCLog | AHCAdd | AHCGo | AHCSelectDone | AHCSelectCh
| AHCCloseRemote | AHCCloseAccepted | AHCDone
| ADCAdd | ADCGo1 | ADCGo2 | ADCRecv | ADCCloseCh | ADCDone
| ACCCopy (d : direction) (w : writer) (rd : list read_result)
| ACCSend (d : direction)
| ACCDone (d : direction).

(** The result of one statement of a session: the session after it, what it
    adds to the wait group (if it touches it) and what it logs. *)
Definition outcome : Type := result (session * option Z * list entry).

(** [handleConn(accepted, remote)], one statement at a time; the deferred
    calls run in reverse order when the [select] is over.  [stop] is
    [c.done]. *)
Definition handleConn (a : session_action) (stop : chan unit) (s : session)
  : outcome :=
  match a, hc s with
  | AHCLog, HCLog =>
      Ok (set_hc HCAdd s, None,
          [Entry InfoLevel "tunneling connection from %s to %s"
             [RemoteAddr (accepted s); RemoteAddr (remote s)]])
  | AHCAdd, HCAdd => Ok (set_hc HCGo (set_ch (make_chan 0) s), Some 1, [])
  | AHCGo, HCGo => Ok (set_hc HCSelect (set_dc DCAdd s), None, [])
  | AHCSelectDone, HCSelect =>
      if chan_ready stop then Ok (set_hc HCCloseRemote s, None, [])
      else Block
  | AHCSelectCh, HCSelect =>
      if chan_ready (ch s) then Ok (set_hc HCCloseRemote s, None, [])
      else Block
  | AHCCloseRemote, HCCloseRemote =>
      Ok (set_hc HCCloseAccepted (add_close Remote s), None, [])
  | AHCCloseAccepted, HCCloseAccepted =>
      Ok (set_hc HCDone (add_close Accepted s), None, [])
  | AHCDone, HCDone =>
      Ok (set_hc HCEnd (add_done THandleConn s), Some (-1), [])
  | _, _ => Block
  end.

(** [duplexCopy(conn, rConn, ch)], one statement at a time. *)
Definition duplexCopy (a : session_action) (s : session) : outcome :=
  match a, dc s with
  | ADCAdd, DCAdd =>
      Ok (set_dc DCGo1 (set_copyDone (make_chan 2) s), Some 2, [])
  | ADCGo1, DCGo1 => Ok (set_dc DCGo2 (set_cc_out CCCopy s), None, [])
  | ADCGo2, DCGo2 => Ok (set_dc DCRecv (set_cc_in CCCopy s), None, [])
  | ADCRecv, DCRecv =>
      match chan_recv (copyDone s) with
      | Ok (_, c') => Ok (set_dc DCCloseCh (set_copyDone c' s), None, [])
      | Block => Block
      | Panic m => Panic m
      end
  | ADCCloseCh, DCCloseCh =>
      match chan_close (ch s) with
      | Ok c' => Ok (set_dc DCDone (set_ch c' s), None, [])
      | Block => Block
      | Panic m => Panic m
      end
  | ADCDone, DCDone =>
      Ok (set_dc DCEnd (add_done TDuplexCopy s), Some (-1), [])
  | _, _ => Block
  end.

(** [connCopy(dst, src, copyDone)] in direction [d], one statement at a
    time: the body up to its return, then the deferred send and the deferred
    [c.wg.Done()]. *)
Definition connCopy (a : session_action) (s : session) : outcome :=
  match a with
  | ACCCopy d w rd =>
      match cc d s with
      | CCCopy =>
          match connCopy_body (cc_dst d s) (cc_src d s) w rd with
          | Some (_, l) => Ok (set_cc d CCSend s, None, l)
          | None => Block
          end
      | _ => Block
      end
  | ACCSend d =>
      match cc d s with
      | CCSend =>
          match chan_send tt (copyDone s) with
          | Ok c' => Ok (set_cc d CCDone (set_copyDone c' s), None, [])
          | Block => Block
          | Panic m => Panic m
          end
      | _ => Block
      end
  | ACCDone d =>
      match cc d s with
      | CCDone =>
          Ok (set_cc d CCEnd (add_done (copy_task d) s), Some (-1), [])
      | _ => Block
      end
  | _ => Block
  end.

(** One statement of one goroutine of a session. *)
Definition session_exec (a : session_action) (stop : chan unit) (s : session)
  : outcome :=
  match a with
  | AHCLog | AHCAdd | AHCGo | AHCSelectDone | AHCSelectCh
  | AHCCloseRemote | AHCCloseAccepted | AHCDone => handleConn a stop s
  | ADCAdd | ADCGo1 | ADCGo2 | ADCRecv | ADCCloseCh | ADCDone =>
      duplexCopy a s
  | ACCCopy _ _ _ | ACCSend _ | ACCDone _ => connCopy a s
  end.

(** *** The statements of the process *)

(** An action is one statement of one goroutine together with what the
    environment answers to it; [ASignal] is the delivery of a signal by
    [signal.Notify], which never blocks and drops the signal when the
    channel is full. *)
Inductive action : Type :=
| ARunParse (r : URL + error)
| ARunListen (r : option error)
| ARunFromURL (r : option error)
| ARunGoServe
| ARunSelectSignal
| ARunSelectDone
| ARunShutdown
| ARunCloseListener (r : option error)
| ARunGoWait
| ARunSelectCh
| ARunSelectTimeout
| ARunRecvErr
| ASignal (sig : Signal)
| AServeAccept (r : conn + error)
| AServeDial (r : conn + error)
| AServeAdd
| AServeGo
| AWaitWait
| AWaitClose
| ASession (i : nat) (a : session_action).

(** [Run], one statement at a time.  [shutdown] is executed as one
    statement: [Run] is its only caller. *)
Definition Run (a : action) (st : state) : option state :=
  match a, run st with
  | ARunParse r, RunParse =>
      if String.eqb (proxyAddress (cl st)) EmptyString
      then Some (set_run (RunListen None) st)
      else match r with
           | inl u => Some (set_run (RunListen (Some u)) st)
           | inr e =>
               Some (set_run (RunFatalParse e)
                       (Fatalf "could not parse proxy URL: %s" [Error_ e] st))
           end
  | ARunListen r, RunListen u =>
      match r with
      | None =>
          Some (set_run (RunFromURL u)
                  (Infof "Listening port opened on %s"
                     [listenAddress (cl st)] (set_lstn Listening st)))
      | Some e =>
          Some (set_run (RunFatalListen e)
                  (Fatalf "could not start listening: %s" [Error_ e] st))
      end
  | ARunFromURL r, RunFromURL None =>
      Some (set_run RunGoServe (set_dialer (Some Direct) st))
  | ARunFromURL r, RunFromURL (Some u) =>
      match r with
      | None =>
          Some (set_run RunGoServe (set_dialer (Some (FromURL u Direct)) st))
      | Some e =>
          Some (set_run (RunFatalProxy e)
                  (Fatalf "could not construct proxy: %s" [Error_ e] st))
      end
  | ARunGoServe, RunGoServe =>
      Some (set_run RunSelect (set_srv ServeAccept st))
  | ARunSelectSignal, RunSelect =>
      match chan_recv (signal (cl st)) with
      | Ok (_, c') =>
          Some (set_run RunShutdown
                  (Infof "received shutdown signal from user" []
                     (set_cl (set_signal c' (cl st)) st)))
      | _ => None
      end
  | ARunSelectDone, RunSelect =>
      if chan_ready (done (cl st)) then Some (set_run RunShutdown st)
      else None
  | ARunShutdown, RunShutdown =>
      on_client (shutdown (cl st)) (set_run RunCloseListener st)
  | ARunCloseListener r, RunCloseListener =>
      let st := Infof "stopping proxy client: %s" [listenAddress (cl st)] st in
      let st := set_lstn ListenerClosed st in
      let st := match r with
                | Some e => Errorf "failed to close listener: %s" [Error_ e] st
                | None => st
                end in
      Some (set_run RunGoWait st)
  | ARunGoWait, RunGoWait =>
      Some (set_run RunSelectWait (set_wt WaitWait (set_wch (make_chan 0) st)))
  | ARunSelectCh, RunSelectWait =>
      if chan_ready (wch st) then Some (set_run RunRecvErr st) else None
  | ARunSelectTimeout, RunSelectWait =>
      Some (set_run RunRecvErr
              (Warnf "some goroutines will be stopped forcefully" [] st))
  | ARunRecvErr, RunRecvErr =>
      match chan_recv (errChan (cl st)) with
      | Ok (v, c') =>
          Some (set_run (RunReturned (default None v))
                  (set_cl (set_errChan c' (cl st)) st))
      | _ => None
      end
  | _, _ => None
  end.

(** The goroutine [Run] starts to wait for the wait group. *)
Definition Run_func1 (a : action) (st : state) : option state :=
  match a, wt st with
  | AWaitWait, WaitWait =>
      if wg (cl st) =? 0 then Some (set_wt WaitClose st) else None
  | AWaitClose, WaitClose =>
      match chan_close (wch st) with
      | Ok c' => Some (set_wt WaitEnd (set_wch c' st))
      | Block => None
      | Panic m => Some (set_proc (Panicked m) st)
      end
  | _, _ => None
  end.

(** [serve(listener, dialer)], one statement at a time.  [Accept] gives a
    connection only while the listener is open. *)
Definition serve (a : action) (st : state) : option state :=
  match a, srv st with
  | AServeAccept (inl c), ServeAccept =>
      match lstn st with
      | Listening =>
          Some (set_srv (ServeDial c)
                  (Infof "accepted connection from %s on %s"
                     [RemoteAddr c; LocalAddr c] st))
      | _ => None
      end
  | AServeAccept (inr e), ServeAccept =>
      Some (set_srv (ServeFatal e)
              (Fatalf "error accepting connection: %s" [Error_ e] st))
  | AServeDial (inl d), ServeDial a => Some (set_srv (ServeAdd a d) st)
  | AServeDial (inr e), ServeDial a =>
      Some (set_srv ServeAccept
              (add_refused a
                 (Errorf "error dialing remote target: %s" [Error_ e] st)))
  | AServeAdd, ServeAdd a d =>
      on_client (wg_Add 1 (cl st)) (set_srv (ServeGo a d) st)
  | AServeGo, ServeGo a d =>
      Some (set_srv ServeAccept
              (set_sessions (sessions st ++ [new_session a d]) st))
  | _, _ => None
  end.

(** The non-blocking send of [signal.Notify] on the channel of [main]. *)
Definition signal_Notify (sig : Signal) (st : state) : option state :=
  match chan_send sig (signal (cl st)) with
  | Ok c' => Some (set_cl (set_signal c' (cl st)) st)
  | _ => Some st
  end.

(** One statement of one goroutine. *)
Definition step (a : action) (st : state) : option state :=
  match a with
  | ARunParse _ | ARunListen _ | ARunFromURL _ | ARunGoServe
  | ARunSelectSignal | ARunSelectDone | ARunShutdown | ARunCloseListener _
  | ARunGoWait | ARunSelectCh | ARunSelectTimeout | ARunRecvErr => Run a st
  | ASignal sig => signal_Notify sig st
  | AServeAccept _ | AServeDial _ | AServeAdd | AServeGo => serve a st
  | AWaitWait | AWaitClose => Run_func1 a st
  | ASession i a =>
      match sessions st !! i with
      | Some s =>
          match session_exec a (done (cl st)) s with
          | Ok (s', n, l) =>
              let st :=
                add_logs l (set_sessions (<[i:=s']> (sessions st)) st) in
              match n with
              | Some n => on_client (wg_Add n (cl st)) st
              | None => Some st
              end
          | Block => None
          | Panic m => Some (set_proc (Panicked m) st)
          end
      | None => None
      end
  end.

(** A process that has exited or panicked executes nothing. *)
Definition exec (a : action) (st : state) : option state :=
  match proc st with
  | Running => step a st
  | _ => None
  end.

Fixpoint exec_all (l : list action) (st : state) : option state :=
  match l with
  | [] => Some st
  | a :: l' =>
      match exec a st with
      | Some st' => exec_all l' st'
      | None => None
      end
  end.

(** [main] registers a signal channel of capacity 1, builds the client
    from the flags and calls [Run]. *)
Definition start (listenAddr targetAddr proxyAddr : string)
    (dialTimeout keepAliveInterval : Z) : state :=
  {| cl := newClient listenAddr targetAddr proxyAddr dialTimeout
             keepAliveInterval (make_chan 1);
     proc := Running;
     logs := [];
     lstn := NotListening;
     dialer := None;
     run := RunParse;
     srv := ServeNotStarted;
     wt := WaitNotStarted;
     wch := make_chan 0;
     sessions := [];
     refused := [] |}.

Definition initial (st : state) : Prop :=
  exists l t p d k, st = start l t p d k.

(** The states the process can be in. *)
Inductive reachable : state -> Prop :=
| reachable_start st : initial st -> reachable st
| reachable_exec a st st' :
    reachable st -> exec a st = Some st' -> reachable st'.

(** ** Notions the properties are stated with *)


(** A [*net.OpError] whose operation tag is "read" or "readfrom". *)
Definition read_OpError (e : error) : Prop :=
  exists net msg, e = OpError "read" net msg \/ e = OpError "readfrom" net msg.

(** How often [x] occurs in a list of calls. *)
Fixpoint calls {A : Type} (eqb : A -> A -> bool) (x : A) (l : list A) : nat :=
  match l with
  | [] => 0
  | y :: l' => ((if eqb x y then 1 else 0) + calls eqb x l')%nat
  end.

(** Where a goroutine stands, read off its program counter. *)
Definition dc_added (p : handleConn_pc) : bool :=
  match p with HCLog | HCAdd => false | _ => true end.
Definition dc_spawned (p : handleConn_pc) : bool :=
  match p with HCLog | HCAdd | HCGo => false | _ => true end.
Definition hc_woken (p : handleConn_pc) : bool :=
  match p with
  | HCCloseRemote | HCCloseAccepted | HCDone | HCEnd => true
  | _ => false
  end.
Definition remote_closed (p : handleConn_pc) : bool :=
  match p with HCCloseAccepted | HCDone | HCEnd => true | _ => false end.
Definition accepted_closed (p : handleConn_pc) : bool :=
  match p with HCDone | HCEnd => true | _ => false end.
Definition hc_ended (p : handleConn_pc) : bool :=
  match p with HCEnd => true | _ => false end.
(** The calls of [Close] the deferred statements of [handleConn] have made
    when it stands at [p]. *)
Definition closes_at (p : handleConn_pc) : list side :=
  (if remote_closed p then [Remote] else [])
  ++ (if accepted_closed p then [Accepted] else []).

Definition dc_started (p : duplexCopy_pc) : bool :=
  match p with DCNotStarted => false | _ => true end.
Definition cc_added (p : duplexCopy_pc) : bool :=
  match p with DCNotStarted | DCAdd => false | _ => true end.
Definition out_spawned (p : duplexCopy_pc) : bool :=
  match p with DCNotStarted | DCAdd | DCGo1 => false | _ => true end.
Definition in_spawned (p : duplexCopy_pc) : bool :=
  match p with DCNotStarted | DCAdd | DCGo1 | DCGo2 => false | _ => true end.
Definition dc_received (p : duplexCopy_pc) : bool :=
  match p with DCCloseCh | DCDone | DCEnd => true | _ => false end.
Definition dc_closed_ch (p : duplexCopy_pc) : bool :=
  match p with DCDone | DCEnd => true | _ => false end.
Definition dc_ended (p : duplexCopy_pc) : bool :=
  match p with DCEnd => true | _ => false end.

Definition cc_started (p : connCopy_pc) : bool :=
  match p with CCNotStarted => false | _ => true end.
(** [io.Copy] has returned and the task has sent its completion token. *)
Definition cc_sent (p : connCopy_pc) : bool :=
  match p with CCDone | CCEnd => true | _ => false end.
Definition cc_ended (p : connCopy_pc) : bool :=
  match p with CCEnd => true | _ => false end.

(** Task [t] of session [s] has been counted by a [c.wg.Add] and has not
    called [c.wg.Done()] yet.  The increment for [handleConn] is made by
    [serve] before the session exists, the one for [duplexCopy] by
    [handleConn], the two for [connCopy] by [duplexCopy]. *)
Definition holds (t : task) (s : session) : bool :=
  match t with
  | THandleConn => negb (hc_ended (hc s))
  | TDuplexCopy => dc_added (hc s) && negb (dc_ended (dc s))
  | TCopyOut => cc_added (dc s) && negb (cc_ended (cc_out s))
  | TCopyIn => cc_added (dc s) && negb (cc_ended (cc_in s))
  end.

Definition outstanding (s : session) : nat :=
  (Nat.b2n (holds THandleConn s) + Nat.b2n (holds TDuplexCopy s)
   + Nat.b2n (holds TCopyOut s) + Nat.b2n (holds TCopyIn s))%nat.

(** [serve] has executed [c.wg.Add(1)] and not yet [go c.handleConn]. *)
Definition pending_spawn (p : serve_pc) : nat :=
  match p with ServeGo _ _ => 1%nat | _ => 0%nat end.

(** Task [t] of session [s] has run to its end. *)
Definition finished (t : task) (s : session) : bool :=
  match t with
  | THandleConn => hc_ended (hc s)
  | TDuplexCopy => dc_ended (dc s)
  | TCopyOut => cc_ended (cc_out s)
  | TCopyIn => cc_ended (cc_in s)
  end.

Definition all_finished (s : session) : bool :=
  finished THandleConn s && finished TDuplexCopy s
  && finished TCopyOut s && finished TCopyIn s.


(** What the program counter of [Run] tells about the rest. *)
Definition lstn_at (p : run_pc) : listener :=
  match p with
  | RunParse | RunListen _ | RunFatalParse _ | RunFatalListen _ => NotListening
  | RunFromURL _ | RunGoServe | RunSelect | RunShutdown | RunCloseListener
  | RunFatalProxy _ => Listening
  | RunGoWait | RunSelectWait | RunRecvErr | RunReturned _ => ListenerClosed
  end.
Definition dialer_built (p : run_pc) : bool :=
  match p with
  | RunParse | RunListen _ | RunFromURL _
  | RunFatalParse _ | RunFatalListen _ | RunFatalProxy _ => false
  | _ => true
  end.
Definition serve_spawned (p : run_pc) : bool :=
  match p with
  | RunParse | RunListen _ | RunFromURL _ | RunGoServe
  | RunFatalParse _ | RunFatalListen _ | RunFatalProxy _ => false
  | _ => true
  end.
Definition run_fatal (p : run_pc) : bool :=
  match p with
  | RunFatalParse _ | RunFatalListen _ | RunFatalProxy _ => true
  | _ => false
  end.
Definition serve_started (p : serve_pc) : bool :=
  match p with ServeNotStarted => false | _ => true end.
Definition wait_ended (p : wait_pc) : bool :=
  match p with WaitEnd => true | _ => false end.

(** The invariant of one session; [stop] is [c.done]. *)
Record session_inv (stop : chan unit) (s : session) : Prop := {
  si_dc : dc_started (dc s) = dc_spawned (hc s);
  si_out : cc_started (cc_out s) = out_spawned (dc s);
  si_in : cc_started (cc_in s) = in_spawned (dc s);
  si_copyDone_open : ch_closed (copyDone s) = false;
  si_copyDone_cap : ch_cap (copyDone s) = 2%nat;
  si_tokens :
    (length (ch_buf (copyDone s)) + Nat.b2n (dc_received (dc s)) =
     Nat.b2n (cc_sent (cc_out s)) + Nat.b2n (cc_sent (cc_in s)))%nat;
  si_ch_buf : ch_buf (ch s) = [];
  si_ch_closed : ch_closed (ch s) = dc_closed_ch (dc s);
  si_closes : closes s = closes_at (hc s);
  si_dones : forall t, calls task_eqb t (dones s) = Nat.b2n (finished t s);
  si_woken :
    hc_woken (hc s) = true ->
    ch_closed stop = true \/ cc_sent (cc_out s) || cc_sent (cc_in s) = true
}.

(** The invariant of the process. *)
Record inv (st : state) : Prop := {
  inv_errChan : errChan (cl st) = make_chan 1;
  inv_done : ch_buf (done (cl st)) = [];
  inv_wch_buf : ch_buf (wch st) = [];
  inv_wch_closed : ch_closed (wch st) = wait_ended (wt st);
  inv_sessions : Forall (session_inv (done (cl st))) (sessions st);
  inv_wg :
    wg (cl st) =
    Z.of_nat (sum_list_with outstanding (sessions st) + pending_spawn (srv st));
  inv_proc : forall m, proc st <> Panicked m;
  inv_lstn : lstn st = lstn_at (run st);
  inv_dialer : bool_decide (is_Some (dialer st)) = dialer_built (run st);
  inv_srv : serve_started (srv st) = serve_spawned (run st);
  inv_nosess :
    srv st = ServeNotStarted -> sessions st = [] /\ refused st = [];
  inv_fatal : run_fatal (run st) = true -> proc st = Exited 1;
  inv_run : forall e, run st <> RunReturned e
}.

(** The process after session [i] has executed a statement that leaves it
    as [s'], adds [n] to the wait group and logs [l]. *)
Definition commit (i : nat) (s' : session) (n : option Z) (l : list entry)
    (st : state) : state :=
  let st := add_logs l (set_sessions (<[i:=s']> (sessions st)) st) in
  match n with
  | Some n => set_cl (set_wg (wg (cl st) + n) (cl st)) st
  | None => st
  end.




(** ** Concrete connections and errors for the examples *)

Definition peer_a : conn := Conn "198.51.100.7:40112" "192.0.2.1:80".
Definition peer_b : conn := Conn "10.10.34.35:80" "192.0.2.1:51034".
Definition broken_pipe : error := OpError "write" "tcp" "broken pipe".
Definition closed_conn : error :=
  OpError "read" "tcp" "use of closed network connection".

(** ** Concrete runs for the examples *)

Definition unknown_scheme : error := ErrorString "proxy: unknown scheme: foo".
Definition accept_failed : error :=
  OpError "accept" "tcp" "too many open files".

(** A stream of two reads and the end, and a destination that takes it all. *)
Definition hello : list read_result :=
  [([x68; x69], None); ([], None); ([x21], Some EOF)].
Definition sink : writer := Writer [] None broken_pipe.

(** [Run] up to [go c.serve], without a proxy. *)
Definition to_serve : list action :=
  [ARunParse (inl (Url EmptyString EmptyString)); ARunListen None;
   ARunFromURL None; ARunGoServe].

(** One connection accepted and dialed, its session started, both copy
    tasks in [io.Copy]. *)
Definition to_copying : list action :=
  to_serve ++
  [AServeAccept (inl peer_a); AServeDial (inl peer_b); AServeAdd; AServeGo;
   ASession 0 AHCLog; ASession 0 AHCAdd; ASession 0 AHCGo;
   ASession 0 ADCAdd; ASession 0 ADCGo1; ASession 0 ADCGo2].

(** The copy from the accepted connection has ended and sent its token. *)
Definition to_first_sent : list action :=
  to_copying ++ [ASession 0 (ACCCopy Out sink hello); ASession 0 (ACCSend Out)].

(** [duplexCopy] has taken the token and returned, [handleConn] has closed
    both connections, and the other copy comes back from [io.Copy] with the
    error of a read on a closed connection. *)
Definition to_second_send : list action :=
  to_first_sent ++
  [ASession 0 ADCRecv; ASession 0 ADCCloseCh; ASession 0 ADCDone;
   ASession 0 AHCSelectCh; ASession 0 AHCCloseRemote;
   ASession 0 AHCCloseAccepted;
   ASession 0 (ACCCopy In_ sink [([], Some closed_conn)])].

(** A connection is accepted and about to be dialed. *)
Definition to_dial : list action := to_serve ++ [AServeAccept (inl peer_a)].

(** A signal arrives with no session open; [Run] shuts down, the waiting
    goroutine sees the counter at zero and closes [ch]. *)
Definition to_recv_err : list action :=
  to_serve ++
  [ASignal Interrupt; ARunSelectSignal; ARunShutdown; ARunCloseListener None;
   ARunGoWait; AWaitWait; AWaitClose; ARunSelectCh].

(** A proxy URL that parses and whose scheme [proxy.FromURL] refuses. *)
Definition to_proxy_failure : list action :=
  [ARunParse (inl (Url "foo" "127.0.0.1:1080")); ARunListen None;
   ARunFromURL (Some unknown_scheme)].

(** The two configurations of the examples, and the state a run ends in. *)
Definition direct : state := start ":80" "10.10.34.35:80" EmptyString 10 30.
Definition via_foo : state :=
  start ":80" "10.10.34.35:80" "foo://127.0.0.1:1080/" 10 30.
Definition after (acts : list action) (st0 : state) : state :=
  default st0 (exec_all acts st0).

Definition st_serve : state := Eval vm_compute in after to_serve direct.
Definition st_first_sent : state :=
  Eval vm_compute in after to_first_sent direct.
Definition st_dial : state := Eval vm_compute in after to_dial direct.
Definition st_recv_err : state := Eval vm_compute in after to_recv_err direct.
Definition st_proxy_failure : state :=
  Eval vm_compute in after to_proxy_failure via_foo.

(** The session of these runs, as it is in each of the states. *)
Definition s_first_sent : session :=
  Eval vm_compute in
    default (new_session peer_a peer_b) (sessions st_first_sent !! 0%nat).

(** ** Notions for the further properties *)

(** How many entries of a log satisfy [p]. *)
Fixpoint count_where (p : entry -> bool) (l : list entry) : nat :=
  match l with
  | [] => 0
  | e :: l' => ((if p e then 1 else 0) + count_where p l')%nat
  end.

Definition is_fatal (e : entry) : bool :=
  match lvl e with FatalLevel => true | _ => false end.
Definition is_warn (e : entry) : bool :=
  match lvl e with WarnLevel => true | _ => false end.
(** The entry [serve] logs for every connection [Accept] gives it. *)
Definition is_accept_entry (e : entry) : bool :=
  String.eqb (fmt e) "accepted connection from %s on %s".

(** The entry [serve] logs for every failed dial. *)
Definition is_dial_error (e : entry) : bool :=
  String.eqb (fmt e) "error dialing remote target: %s".

(** [serve] holds an accepted connection that is neither a session yet nor
    closed. *)
Definition in_setup (p : serve_pc) : nat :=
  match p with
  | ServeDial _ | ServeAdd _ _ | ServeGo _ _ => 1%nat
  | _ => 0%nat
  end.

(** [Run] has executed [c.shutdown()]. *)
Definition shutdown_done (p : run_pc) : bool :=
  match p with
  | RunCloseListener | RunGoWait | RunSelectWait | RunRecvErr
  | RunReturned _ => true
  | _ => false
  end.

(** [Run] is past its second [select]. *)
Definition wait_over (p : run_pc) : bool :=
  match p with RunRecvErr | RunReturned _ => true | _ => false end.

(** The local variable [proxyURL] of [Run] while it is still needed. *)
Definition proxyURL_at (p : run_pc) : option (option URL) :=
  match p with
  | RunListen u | RunFromURL u => Some u
  | _ => None
  end.

(** The same process with other values in the two duration fields of the
    client. *)
Definition retime (ka dt : Z) (st : state) : state :=
  set_cl (Client (listenAddress (cl st)) (targetAddress (cl st))
            (proxyAddress (cl st)) ka dt (wg (cl st)) (errChan (cl st))
            (signal (cl st)) (done (cl st))) st.

(** The flags of [main.go] with the defaults [init] gives them, and [main]
    up to its call of [Run]: [None] when it prints the usage and returns,
    otherwise the process in which [Run] is about to start.  [debug_line]
    tells whether [log.Debugf] prints its line, which it does at debug level
    only. *)
Module Main.

Record flags : Type := Flags {
  listenAddr : string;
  targetAddr : string;
  proxyAddr : string;
  dialTimeout : Z;
  keepAliveInterval : Z;
  showHelp : bool;
  debugLog : bool
}.

Definition init : flags :=
  Flags EmptyString EmptyString EmptyString 10 30 false false.

Definition debug_line (f : flags) : bool := debugLog f.

Definition main (f : flags) : option state :=
  if showHelp f || String.eqb (targetAddr f) EmptyString
     || String.eqb (listenAddr f) EmptyString
  then None
  else Some (start (listenAddr f) (targetAddr f) (proxyAddr f)
               (dialTimeout f) (keepAliveInterval f)).

End Main.

(** What the further properties need of every state the process reaches. *)
Record inv2 (st : state) : Prop := {
  i2_done : ch_closed (done (cl st)) = shutdown_done (run st);
  i2_signal_open : ch_closed (signal (cl st)) = false;
  i2_signal_cap : ch_cap (signal (cl st)) = 1%nat;
  i2_signal_len : (length (ch_buf (signal (cl st))) <= 1)%nat;
  i2_exit :
    match proc st with
    | Running => count_where is_fatal (logs st) = 0%nat
    | Exited c =>
        c = 1 /\
        exists l e, logs st = l ++ [e] /\ is_fatal e = true /\
                    count_where is_fatal l = 0%nat
    | Panicked _ => False
    end;
  i2_accepted :
    count_where is_accept_entry (logs st) =
    (length (sessions st) + length (refused st) + in_setup (srv st))%nat;
  i2_refused : count_where is_dial_error (logs st) = length (refused st);
  i2_warn_once : (count_where is_warn (logs st) <= 1)%nat;
  i2_warn_late :
    count_where is_warn (logs st) = 1%nat -> wait_over (run st) = true;
  i2_silent :
    wait_over (run st) = true -> count_where is_warn (logs st) = 0%nat ->
    wt st = WaitEnd;
  i2_proxyURL :
    forall u, proxyURL_at (run st) = Some u ->
      (u = None <-> proxyAddress (cl st) = EmptyString);
  i2_dialer :
    forall dl, dialer st = Some dl ->
      (proxyAddress (cl st) = EmptyString -> dl = Direct) /\
      (proxyAddress (cl st) <> EmptyString -> exists u, dl = FromURL u Direct)
}.

(** ** Concrete runs for the further properties *)

Definition listen_refused : error :=
  OpError "listen" "tcp" "address already in use".

(** [net.Listen] fails. *)
Definition to_listen_failure : list action :=
  [ARunParse (inl (Url EmptyString EmptyString));
   ARunListen (Some listen_refused)].


(** The session runs to its end, then a signal arrives and [Run] goes on to
    start the goroutine that waits for the wait group. *)
Definition to_drained : list action :=
  to_second_send ++
  [ASession 0 (ACCSend In_); ASession 0 (ACCDone In_);
   ASession 0 (ACCDone Out); ASession 0 AHCDone;
   ASignal Interrupt; ARunSelectSignal; ARunShutdown;
   ARunCloseListener None; ARunGoWait].

Definition st_listen_failure : state :=
  Eval vm_compute in after to_listen_failure direct.
Definition st_drained : state := Eval vm_compute in after to_drained direct.
Definition st_signalled : state :=
  Eval vm_compute in after (to_recv_err ++ [ASignal Kill]) direct.
Definition st_received : state :=
  Eval vm_compute in after (to_first_sent ++ [ASession 0 ADCRecv]) direct.

(** The flags of [tcptunnel -listen :80 -target 10.10.34.35:80]. *)
Definition flags_direct : Main.flags :=
  Main.Flags ":80" "10.10.34.35:80" EmptyString 10 30 false false.


(** ** Tactics *)

Ltac session_cases s Hinv :=
  destruct s as [acc rem h d o i c cd cls dns];
  destruct Hinv as [I1 I2 I3 I4 I5 I6 I7 I8 I9 I11 I12];
  simpl in *.

Ltac state_simpl :=
  cbn [cl proc logs lstn dialer run srv wt wch sessions refused
       set_cl set_proc add_logs set_lstn set_dialer set_run set_srv set_wt
       set_wch set_sessions add_refused Infof Warnf Errorf Fatalf
       wg errChan signal done set_wg set_signal set_done set_errChan] in *.


Ltac string_hyps :=
  repeat match goal with
         | H : String.eqb _ _ = true |- _ => apply String.eqb_eq in H
         | H : String.eqb _ _ = false |- _ => apply String.eqb_neq in H
         | H : (_ <? _)%nat = true |- _ => apply Nat.ltb_lt in H
         | H : (_ <? _)%nat = false |- _ => apply Nat.ltb_ge in H
         end.

Ltac bool_hyps :=
  repeat match goal with
         | H : (_ <? _) = true |- _ => apply Z.ltb_lt in H
         | H : (_ <? _) = false |- _ => apply Z.ltb_ge in H
         | H : (_ =? _) = true |- _ => apply Z.eqb_eq in H
         | H : (_ =? _) = false |- _ => apply Z.eqb_neq in H
         end.

(** * Properties *)

(** ** The directional copy *)

Lemma error_eqb_eq (a b : error) : error_eqb a b = true <-> a = b.
Proof.
  destruct a, b; simpl; rewrite ?andb_true_iff, ?String.eqb_eq;
    split; try congruence; try tauto.
  - intros [[-> ->] ->]. reflexivity.
  - intros [= -> -> ->]. tauto.
Qed.









(** ** The invariant of a session *)

Lemma calls_app {A : Type} (eqb : A -> A -> bool) (x : A) (l k : list A) :
  calls eqb x (l ++ k) = (calls eqb x l + calls eqb x k)%nat.
Proof. induction l as [|y l IH]; simpl; [done|]. rewrite IH. lia. Qed.

Lemma chan_ready_closed {A : Type} (c : chan A) :
  ch_buf c = [] -> chan_ready c = ch_closed c.
Proof.
  unfold chan_ready, chan_recv. intros ->. by destruct (ch_closed c).
Qed.

Lemma session_exec_inv (stop : chan unit) (s s' : session)
    (a : session_action) (n : option Z) (l : list entry) :
  ch_buf stop = [] ->
  session_inv stop s ->
  session_exec a stop s = Ok (s', n, l) ->
  session_inv stop s' /\
  Z.of_nat (outstanding s') = Z.of_nat (outstanding s) + default 0 n.
Proof.
  intros Hstop Hinv Hexec.
  pose proof (chan_ready_closed stop Hstop) as Hready.
  session_cases s Hinv.
  destruct a as [| | | | | | | | | | | | | |[]|[]|[]];
    cbv beta iota delta [session_exec handleConn duplexCopy connCopy]
      in Hexec;
    simpl in Hexec;
    rewrite ?Hready in Hexec; clear Hready;
    unfold chan_ready, chan_recv, chan_close, chan_send, connCopy_body in Hexec;
    repeat case_match; simplify_eq; simpl in *.
  all: pose proof (I11 THandleConn) as D1; pose proof (I11 TDuplexCopy) as D2;
       pose proof (I11 TCopyOut) as D3; pose proof (I11 TCopyIn) as D4;
       simpl in *.
  all: repeat match goal with
              | x : handleConn_pc |- _ =>
                  destruct x; simpl in *; try discriminate
              | x : duplexCopy_pc |- _ =>
                  destruct x; simpl in *; try discriminate
              | x : connCopy_pc |- _ =>
                  destruct x; simpl in *; try discriminate
              end.
  all: (split; [constructor; simpl; rewrite ?calls_app, ?length_app; simpl;
                try done; try lia; try tauto; auto;
                try (intros t; destruct t; simpl; rewrite ?calls_app;
                     simpl; lia)
               | unfold outstanding; simpl; lia]).
Qed.

Lemma session_exec_no_panic (stop : chan unit) (s : session)
    (a : session_action) (m : string) :
  session_inv stop s -> session_exec a stop s <> Panic m.
Proof.
  intros Hinv Hexec.
  destruct Hinv as [_ _ _ I4 _ _ _ I8 _ _ _].
  destruct a; simpl in Hexec;
    unfold chan_recv, chan_close, chan_send in Hexec;
    repeat case_match; simplify_eq.
Qed.

Lemma session_inv_stop (stop stop' : chan unit) (s : session) :
  (ch_closed stop = true -> ch_closed stop' = true) ->
  session_inv stop s -> session_inv stop' s.
Proof. intros Hmono []. constructor; try done. tauto. Qed.

Lemma session_inv_new (stop : chan unit) (a d : conn) :
  session_inv stop (new_session a d).
Proof. constructor; try done. by intros []. Qed.

Lemma sum_list_with_insert {A : Type} (f : A -> nat) (l : list A) (i : nat)
    (x y : A) :
  l !! i = Some x ->
  (sum_list_with f (<[i:=y]> l) + f x = sum_list_with f l + f y)%nat.
Proof.
  revert i. induction l as [|z l IH]; intros [|i] Hi; simplify_eq/=.
  - lia.
  - specialize (IH _ Hi). lia.
Qed.


Lemma shutdown_ok (c : client) :
  exists c', shutdown c = Ok c' /\
    wg c' = wg c /\ errChan c' = errChan c /\ signal c' = signal c /\
    ch_buf (done c') = ch_buf (done c) /\
    (ch_closed (done c) = true -> ch_closed (done c') = true) /\
    chan_ready (done c') = true.
Proof.
  unfold shutdown, chan_ready, chan_recv, chan_close.
  destruct c as [? ? ? ? ? ? ? ? [[|[] buf] cap []]]; simpl;
    eexists; (split; [reflexivity|]); simpl; done.
Qed.

(** ** The invariant holds in every state the process reaches *)

Lemma inv_start (l t p : string) (d k : Z) : inv (start l t p d k).
Proof. constructor; simpl; try done. Qed.

Lemma exec_session_inv (st st' : state) (i : nat) (a : session_action) :
  inv st -> exec (ASession i a) st = Some st' -> inv st'.
Proof.
  intros Hinv Hexec. unfold exec, step in Hexec.
  destruct (proc st) eqn:Hproc; try done.
  destruct (sessions st !! i) as [s|] eqn:Hi; [|done].
  pose proof (Forall_lookup_1 _ _ _ _ (inv_sessions st Hinv) Hi) as Hs.
  destruct (session_exec a (done (cl st)) s) as [[[s' n] l]| |m] eqn:Hse.
  - destruct (session_exec_inv _ _ _ _ _ _ (inv_done st Hinv) Hs Hse)
      as [Hs' Hout].
    pose proof (sum_list_with_insert outstanding _ _ _ s' Hi) as Hsum.
    pose proof (inv_wg st Hinv) as Hwg.
    assert (Hsess : Forall (session_inv (done (cl st)))
                      (<[i:=s']> (sessions st)))
      by (apply Forall_insert; [apply Hinv|done]).
    destruct Hinv as [G1 G2 G3 G4 G5 G6 G7 G8 G9 G10 G11 G12 G13].
    destruct n as [n|]; simpl in *.
    + unfold on_client, wg_Add in Hexec. simpl in Hexec.
      destruct (Z.ltb_spec (wg (cl st) + n) 0); [lia|]. simplify_eq.
      constructor; simpl; try done; try lia.
      intros Hsrv. destruct (G11 Hsrv) as [Hnil _].
      by rewrite Hnil in Hi.
    + simplify_eq. constructor; simpl; try done; try lia.
      intros Hsrv. destruct (G11 Hsrv) as [Hnil _].
      by rewrite Hnil in Hi.
  - done.
  - by apply session_exec_no_panic in Hse.
Qed.

Lemma exec_inv (st st' : state) (a : action) :
  inv st -> exec a st = Some st' -> inv st'.
Proof.
  intros Hinv Hexec.
  destruct a; try (by eapply exec_session_inv).
  all: unfold exec, step, Run, Run_func1, serve, signal_Notify in Hexec.
  all: destruct (proc st) eqn:Hproc; try done.
  all: destruct Hinv as [G1 G2 G3 G4 G5 G6 G7 G8 G9 G10 G11 G12 G13].
  all: assert (Hnf : run_fatal (run st) = false)
         by (destruct (run_fatal (run st));
             [specialize (G12 eq_refl); congruence|done]).
  all: clear G12.
  all: try (destruct (shutdown_ok (cl st))
              as (c' & Hsh & Hw & He & Hsg & Hb & Hc & _);
            rewrite ?Hsh in Hexec).
  all: rewrite ?G1 in Hexec.
  all: destruct st as [c0 p0 lg0 ls0 dl0 r0 sv0 w0 wc0 ss0 rf0]; simpl in *.
  all: unfold on_client, wg_Add, chan_ready, chan_recv, chan_close, chan_send,
         Fatalf, Infof, Warnf, Errorf in Hexec.
  all: repeat case_match; simplify_eq; simpl in *; bool_hyps.
  all: try (constructor; simpl; try done; try congruence; try lia).
  all: rewrite ?Forall_app, ?Forall_singleton, ?sum_list_with_app; simpl.
  all: try lia.
  all: try (destruct sv0; simpl in *; try done; lia).
  all: try (split; [done|apply session_inv_new]).
  all: try (eapply Forall_impl; [done|];
            intros; eapply session_inv_stop; [|done]; done).
Qed.

Lemma reachable_inv (st : state) : reachable st -> inv st.
Proof.
  induction 1 as [st (l & t & p & d & k & ->)|a st st' _ IH Hexec].
  - apply inv_start.
  - by eapply exec_inv.
Qed.

Lemma exec_all_reachable (l : list action) (st st' : state) :
  reachable st -> exec_all l st = Some st' -> reachable st'.
Proof.
  revert st. induction l as [|a l IH]; intros st Hst Hexec; simpl in Hexec.
  - by simplify_eq.
  - destruct (exec a st) as [st1|] eqn:Ha; [|done].
    eapply IH; [|done]. by eapply reachable_exec.
Qed.

Lemma exec_all_start_reachable (l t p : string) (d k : Z)
    (acts : list action) (st : state) :
  exec_all acts (start l t p d k) = Some st -> reachable st.
Proof.
  apply exec_all_reachable. apply reachable_start. by exists l, t, p, d, k.
Qed.

Lemma exec_all_start_inv (l t p : string) (d k : Z)
    (acts : list action) (st : state) :
  exec_all acts (start l t p d k) = Some st -> inv st.
Proof. intros H. by eapply reachable_inv, exec_all_start_reachable. Qed.


(** ** The result of [Run] *)

(** C2 (what the code does): [Run] ends with [return <-c.errChan], and no
    statement of the program sends on [errChan] or closes it.  So in every
    state the process reaches the channel is empty and open, the receive
    cannot proceed, and [Run] has not returned; the bounded wait before it
    does end, at the latest by its timer. *)
Theorem Run_never_returns (l t p : string) (d k : Z) (acts : list action)
    (st : state) :
  exec_all acts (start l t p d k) = Some st ->
  errChan (cl st) = make_chan 1 /\
  exec ARunRecvErr st = None /\
  (forall e, run st <> RunReturned e) /\
  (proc st = Running -> run st = RunSelectWait ->
   exists st', exec ARunSelectTimeout st = Some st' /\ run st' = RunRecvErr).
Proof.
  intros Hst. pose proof (exec_all_start_inv _ _ _ _ _ _ _ Hst) as Hinv.
  split; [apply Hinv|]. split; [|split; [apply Hinv|]].
  - unfold exec, step, Run. rewrite (inv_errChan _ Hinv).
    by repeat case_match.
  - intros Hproc Hrun. unfold exec, step, Run. rewrite Hproc, Hrun.
    by eexists.
Qed.

(** ** Startup *)

(** C9 (as the code has it): the dialer is built before [serve] is started,
    and a failure to build it ends the process before any connection is
    accepted.  A proxy URL that does not parse ends it before [net.Listen];
    a failure of [proxy.FromURL] ends it after [net.Listen] has succeeded,
    with the listener open. *)
Theorem startup_failure_before_serve (l t p : string) (d k : Z)
    (acts : list action) (st : state) :
  exec_all acts (start l t p d k) = Some st ->
  (serve_started (srv st) = true ->
   is_Some (dialer st) /\ lstn st <> NotListening) /\
  (forall e, run st = RunFatalParse e ->
     proc st = Exited 1 /\ lstn st = NotListening /\
     srv st = ServeNotStarted /\ sessions st = [] /\ refused st = []) /\
  (forall e, run st = RunFatalProxy e ->
     proc st = Exited 1 /\ lstn st = Listening /\
     srv st = ServeNotStarted /\ sessions st = [] /\ refused st = []) /\
  (forall e, proc st = Running -> run st = RunParse ->
     proxyAddress (cl st) <> EmptyString ->
     exists st', exec (ARunParse (inr e)) st = Some st' /\
       run st' = RunFatalParse e) /\
  (forall u e, proc st = Running -> run st = RunFromURL (Some u) ->
     exists st', exec (ARunFromURL (Some e)) st = Some st' /\
       run st' = RunFatalProxy e).
Proof.
  intros Hst. pose proof (exec_all_start_inv _ _ _ _ _ _ _ Hst) as Hinv.
  destruct Hinv as [G1 G2 G3 G4 G5 G6 G7 G8 G9 G10 G11 G12 G13].
  assert (Hns : serve_started (srv st) = false -> srv st = ServeNotStarted)
    by (by destruct (srv st)).
  split; [|split; [|split; [|split]]].
  - intros Hstarted. rewrite G10 in Hstarted. split.
    + apply (bool_decide_eq_true_1 (is_Some (dialer st))).
      rewrite G9. by destruct (run st).
    + rewrite G8. by destruct (run st).
  - intros e Hrun.
    assert (Hsrv : srv st = ServeNotStarted)
      by (apply Hns; by rewrite G10, Hrun).
    destruct (G11 Hsrv) as [-> ->]. rewrite G8, Hrun.
    repeat split; try done. apply G12. by rewrite Hrun.
  - intros e Hrun.
    assert (Hsrv : srv st = ServeNotStarted)
      by (apply Hns; by rewrite G10, Hrun).
    destruct (G11 Hsrv) as [-> ->]. rewrite G8, Hrun.
    repeat split; try done. apply G12. by rewrite Hrun.
  - intros e Hproc Hrun Hproxy. unfold exec, step, Run.
    rewrite Hproc, Hrun.
    destruct (String.eqb_spec (proxyAddress (cl st)) EmptyString); [done|].
    by eexists.
  - intros u e Hproc Hrun. unfold exec, step, Run. rewrite Hproc, Hrun.
    by eexists.
Qed.

(** ** The accept loop *)

Lemma wg_Add_ok (n : Z) (c : client) :
  0 <= wg c + n -> wg_Add n c = Ok (set_wg (wg c + n) c).
Proof.
  intros Hpos. unfold wg_Add.
  destruct (Z.ltb_spec (wg c + n) 0); [lia|done].
Qed.


Lemma exec_running (a : action) (st : state) :
  proc st = Running -> exec a st = step a st.
Proof. intros H. unfold exec. by rewrite H. Qed.



(** C3 (what the code does): when [Accept] returns an error, [serve] calls
    [log.Fatalf], which logs and ends the process.  Nothing is sent on
    [errChan], [c.done] is left as it was, and nothing is executed
    afterwards: there is no retry. *)
Theorem serve_accept_error_unrecorded (l t p : string) (d k : Z)
    (acts : list action) (st : state) (e : error) :
  exec_all acts (start l t p d k) = Some st ->
  proc st = Running -> srv st = ServeAccept ->
  exists st',
    exec (AServeAccept (inr e)) st = Some st' /\
    srv st' = ServeFatal e /\
    proc st' = Exited 1 /\
    logs st' =
      logs st ++
      [Entry FatalLevel "error accepting connection: %s" [Error_ e]] /\
    errChan (cl st') = make_chan 1 /\
    done (cl st') = done (cl st) /\
    forall a, exec a st' = None.
Proof.
  intros Hst Hproc Hsrv.
  pose proof (exec_all_start_inv _ _ _ _ _ _ _ Hst) as Hinv.
  unfold exec at 1. unfold step, serve. rewrite Hproc, Hsrv.
  eexists. split; [reflexivity|]. simpl.
  repeat split; try done; apply Hinv.
Qed.


(** ** Shutdown *)

(** C6: [shutdown] never panics; after it the stop notification has fired;
    a first call on an open [done] closes it, a call on a fired [done]
    changes nothing, and so does any number of further calls. *)
Theorem shutdown_idempotent (c : client) :
  exists c',
    shutdown c = Ok c' /\
    chan_ready (done c') = true /\
    (chan_ready (done c) = false ->
     ch_closed (done c) = false /\
     c' = set_done (Chan [] (ch_cap (done c)) true) c) /\
    (chan_ready (done c) = true -> c' = c) /\
    forall n, shutdown_times n c' = Ok c' /\ shutdown_times (S n) c = Ok c'.
Proof.
  assert (Hfix : forall c1, chan_ready (done c1) = true ->
                   forall n, shutdown_times n c1 = Ok c1).
  { intros c1 Hr n. induction n as [|n IH]; [done|].
    simpl. unfold shutdown. by rewrite Hr. }
  unfold shutdown. destruct (chan_ready (done c)) eqn:Hr.
  - exists c. repeat split; try done; try by apply Hfix.
  - unfold chan_ready, chan_recv, chan_close in *.
    destruct c as [? ? ? ? ? ? ? ? [[|[] buf] cap []]]; simpl in *; try done.
    eexists. split; [reflexivity|]. repeat split; try done.
    + by apply Hfix.
    + unfold shutdown, chan_ready, chan_recv, chan_close. simpl.
      by apply Hfix.
Qed.
(** ** Statements of a session *)

Lemma exec_session_ok (st : state) (i : nat) (s s' : session)
    (a : session_action) (n : option Z) (l : list entry) :
  proc st = Running -> sessions st !! i = Some s ->
  session_exec a (done (cl st)) s = Ok (s', n, l) ->
  0 <= wg (cl st) + default 0 n ->
  exec (ASession i a) st = Some (commit i s' n l st).
Proof.
  intros Hproc Hi Hse Hpos. rewrite exec_running by done.
  unfold step. rewrite Hi, Hse. unfold commit.
  destruct n as [n|]; [|done]. state_simpl.
  by rewrite wg_Add_ok.
Qed.

Lemma commit_facts (st : state) (i : nat) (s s' : session) (n : option Z)
    (l : list entry) :
  sessions st !! i = Some s ->
  proc (commit i s' n l st) = proc st /\
  sessions (commit i s' n l st) !! i = Some s' /\
  wg (cl (commit i s' n l st)) = wg (cl st) + default 0 n /\
  done (cl (commit i s' n l st)) = done (cl st) /\
  logs (commit i s' n l st) = logs st ++ l.
Proof.
  intros Hi. apply lookup_lt_Some in Hi.
  unfold commit. destruct n; state_simpl; simpl;
    rewrite list_lookup_insert_eq by done; repeat split; lia.
Qed.

Lemma suppressed_read_OpError (e : error) :
  suppressed e = true <-> read_OpError e.
Proof.
  unfold read_OpError. destruct e as [op net msg|s]; simpl.
  - rewrite orb_true_iff, !String.eqb_eq. split.
    + intros [-> | ->]; exists net, msg; auto.
    + intros (? & ? & [[= -> _ _]|[= -> _ _]]); auto.
  - split; [done|]. by intros (? & ? & [|]).
Qed.

Example connCopy_log_closed_conn :
  connCopy_log peer_b peer_a (Some closed_conn) = [].
Proof. reflexivity. Qed.

Example connCopy_log_broken_pipe :
  connCopy_log peer_b peer_a (Some broken_pipe) =
  [Entry ErrorLevel "failed to copy connection from %s to %s: %s"
     ["198.51.100.7:40112"; "10.10.34.35:80"; "write tcp: broken pipe"]].
Proof. reflexivity. Qed.

(** C7: when [io.Copy] returns, with whatever error, the copy task goes
    on to its deferred completion send with the process running and the wait
    group untouched; it does not call [io.Copy] again.  A [*net.OpError]
    with operation "read" or "readfrom" is not logged, no error is not
    logged, and every other error is logged once, at error level, with the
    remote addresses of the source and of the destination. *)
Theorem copy_error_classified (l t p : string) (d k : Z) (acts : list action)
    (st : state) (i : nat) (s : session) (dir : direction) (w w' : writer)
    (rd : list read_result) (n : Z) (err : option error) :
  exec_all acts (start l t p d k) = Some st ->
  proc st = Running -> sessions st !! i = Some s -> cc dir s = CCCopy ->
  io_Copy w rd = (w', Some (n, err)) ->
  exists st',
    exec (ASession i (ACCCopy dir w rd)) st = Some st' /\
    proc st' = Running /\
    sessions st' !! i = Some (set_cc dir CCSend s) /\
    wg (cl st') = wg (cl st) /\
    (err = None -> logs st' = logs st) /\
    (forall e, err = Some e -> read_OpError e -> logs st' = logs st) /\
    (forall e, err = Some e -> ~ read_OpError e ->
       logs st' =
         logs st ++
         [Entry ErrorLevel "failed to copy connection from %s to %s: %s"
            [RemoteAddr (cc_src dir s); RemoteAddr (cc_dst dir s); Error_ e]]).
Proof.
  intros Hst Hproc Hi Hcc Hcopy.
  assert (Hse : session_exec (ACCCopy dir w rd) (done (cl st)) s =
                Ok (set_cc dir CCSend s, None,
                    connCopy_log (cc_dst dir s) (cc_src dir s) err)).
  { unfold session_exec, connCopy, connCopy_body. by rewrite Hcc, Hcopy. }
  eexists. split.
  { eapply exec_session_ok; [done..|simpl]. 
    pose proof (inv_wg _ (exec_all_start_inv _ _ _ _ _ _ _ Hst)). lia. }
  destruct (commit_facts st i s (set_cc dir CCSend s) None
              (connCopy_log (cc_dst dir s) (cc_src dir s) err) Hi)
    as (-> & -> & -> & _ & ->).
  simpl. repeat split; try done; try lia.
  - intros ->. simpl. by rewrite app_nil_r.
  - intros e -> He. simpl. apply suppressed_read_OpError in He.
    rewrite He. by rewrite app_nil_r.
  - intros e -> He. simpl.
    destruct (suppressed e) eqn:Hs; [|done].
    by apply suppressed_read_OpError in Hs.
Qed.

Lemma session_lookup_inv (st : state) (i : nat) (s : session) :
  inv st -> sessions st !! i = Some s -> session_inv (done (cl st)) s.
Proof.
  intros Hinv Hi.
  exact (Forall_lookup_1 _ _ _ _ (inv_sessions st Hinv) Hi).
Qed.


(** ** The completion channel of [duplexCopy] *)


(** ** The wait group *)




(** ** The end of a session *)






(** ** The properties at concrete runs *)

Lemma Run_never_returns_witness :
  run st_recv_err = RunRecvErr /\ exec ARunRecvErr st_recv_err = None.
Proof.
  split; [reflexivity|].
  apply (Run_never_returns ":80" "10.10.34.35:80" EmptyString 10 30 to_recv_err
           st_recv_err).
  vm_compute. reflexivity.
Defined.

(** C9 as stated fails: the proxy URL parses, [net.Listen] succeeds and then
    [proxy.FromURL] refuses the scheme; the process ends with the listener
    open. *)
Lemma proxy_failure_after_listen :
  exec_all to_proxy_failure via_foo = Some st_proxy_failure /\
  run st_proxy_failure = RunFatalProxy unknown_scheme /\
  proc st_proxy_failure = Exited 1 /\
  lstn st_proxy_failure = Listening /\
  lstn st_proxy_failure <> NotListening.
Proof. vm_compute. repeat split; discriminate. Qed.

Lemma startup_failure_before_serve_witness :
  proc st_proxy_failure = Exited 1 /\
  lstn st_proxy_failure = Listening /\
  srv st_proxy_failure = ServeNotStarted /\
  sessions st_proxy_failure = [] /\
  refused st_proxy_failure = [].
Proof.
  apply (startup_failure_before_serve ":80" "10.10.34.35:80"
           "foo://127.0.0.1:1080/" 10 30 to_proxy_failure st_proxy_failure
           ltac:(vm_compute; reflexivity)) with (e := unknown_scheme).
  reflexivity.
Defined.

Lemma serve_accept_error_unrecorded_witness :
  exists st',
    exec (AServeAccept (inr accept_failed)) st_serve = Some st' /\
    srv st' = ServeFatal accept_failed /\
    proc st' = Exited 1 /\
    logs st' =
      logs st_serve ++
      [Entry FatalLevel "error accepting connection: %s"
         [Error_ accept_failed]] /\
    errChan (cl st') = make_chan 1 /\
    done (cl st') = done (cl st_serve) /\
    forall a, exec a st' = None.
Proof.
  apply (serve_accept_error_unrecorded ":80" "10.10.34.35:80" EmptyString 10 30
           to_serve st_serve accept_failed);
    [vm_compute; reflexivity | reflexivity | reflexivity].
Defined.


Lemma shutdown_idempotent_witness :
  shutdown_times 3 (cl direct) = Ok (set_done (Chan [] 0 true) (cl direct)).
Proof.
  destruct (shutdown_idempotent (cl direct))
    as (c' & _ & _ & Hfirst & _ & Hmore).
  destruct (Hfirst eq_refl) as [_ ->].
  apply (Hmore 2%nat).
Defined.

Lemma copy_error_classified_witness :
  exists st',
    exec (ASession 0 (ACCCopy In_ sink [([], Some closed_conn)])) st_first_sent
      = Some st' /\
    proc st' = Running /\
    sessions st' !! 0%nat = Some (set_cc In_ CCSend s_first_sent) /\
    logs st' = logs st_first_sent.
Proof.
  destruct (copy_error_classified ":80" "10.10.34.35:80" EmptyString 10 30
              to_first_sent st_first_sent 0 s_first_sent In_ sink sink
              [([], Some closed_conn)] 0 (Some closed_conn)
              ltac:(vm_compute; reflexivity) eq_refl eq_refl eq_refl eq_refl)
    as (st' & Hex & Hproc & Hs & _ & _ & Hquiet & _).
  exists st'. repeat split; try done.
  apply (Hquiet closed_conn eq_refl).
  exists "tcp", "use of closed network connection".
  by left.
Defined.




(** * Further properties *)

(** ** The log, the channels and the program counters *)

Lemma count_where_app (p : entry -> bool) (l k : list entry) :
  count_where p (l ++ k) = (count_where p l + count_where p k)%nat.
Proof. induction l as [|e l IH]; simpl; [done|]. rewrite IH. lia. Qed.

Lemma session_exec_logs (a : session_action) (stop : chan unit)
    (s s' : session) (n : option Z) (l : list entry) :
  session_exec a stop s = Ok (s', n, l) ->
  count_where is_fatal l = 0%nat /\ count_where is_warn l = 0%nat /\
  count_where is_accept_entry l = 0%nat /\
  count_where is_dial_error l = 0%nat.
Proof.
  intros H.
  destruct a; simpl in H;
    unfold chan_recv, chan_close, chan_send, connCopy_body, connCopy_log in H;
    repeat case_match; simplify_eq; done.
Qed.

Lemma inv2_start (l t p : string) (d k : Z) : inv2 (start l t p d k).
Proof. constructor; simpl; try done; lia. Qed.

Lemma exec_session_commit (st st' : state) (i : nat) (a : session_action) :
  inv st -> exec (ASession i a) st = Some st' ->
  exists s s' n l,
    sessions st !! i = Some s /\
    session_exec a (done (cl st)) s = Ok (s', n, l) /\
    st' = commit i s' n l st.
Proof.
  intros Hinv Hexec.
  pose proof (exec_inv _ _ _ Hinv Hexec) as Hinv'.
  unfold exec, step in Hexec.
  destruct (proc st) eqn:Hproc; try done.
  destruct (sessions st !! i) as [s|] eqn:Hi; [|done].
  destruct (session_exec a (done (cl st)) s) as [[[s' n] l]| |m] eqn:Hse.
  - exists s, s', n, l. split; [done|]. split; [done|].
    unfold commit. destruct n as [n|]; [|by simplify_eq].
    unfold on_client, wg_Add in Hexec. state_simpl.
    destruct (wg (cl st) + n <? 0); simplify_eq; [|done].
    by destruct (inv_proc _ Hinv' "sync: negative WaitGroup counter").
  - done.
  - by apply session_exec_no_panic in Hse;
      [|exact (session_lookup_inv _ _ _ Hinv Hi)].
Qed.

Lemma exec_session_inv2 (st st' : state) (i : nat) (a : session_action) :
  inv st -> inv2 st -> exec (ASession i a) st = Some st' -> inv2 st'.
Proof.
  intros Hinv Hinv2 Hexec.
  assert (Hproc : proc st = Running).
  { unfold exec in Hexec. by destruct (proc st). }
  destruct (exec_session_commit _ _ _ _ Hinv Hexec)
    as (s & s' & n & l & Hi & Hse & ->).
  destruct (session_exec_logs _ _ _ _ _ _ Hse) as (Hf & Hw & Ha & Hde).
  destruct Hinv2 as [J1 J2 J3 J4 J5 J6 JR J7 J8 J9 J10 J11].
  rewrite Hproc in J5.
  unfold commit. destruct n; constructor; state_simpl;
    rewrite ?Hproc, ?count_where_app, ?Hf, ?Hw, ?Ha, ?Hde, ?length_insert,
      ?Nat.add_0_r; try done; try lia.
Qed.

Lemma shutdown_config (c c' : client) :
  shutdown c = Ok c' ->
  listenAddress c' = listenAddress c /\ targetAddress c' = targetAddress c /\
  proxyAddress c' = proxyAddress c /\
  keepAlivePeriod c' = keepAlivePeriod c /\ dialTimeout c' = dialTimeout c.
Proof.
  unfold shutdown, chan_close. intros H.
  repeat case_match; by simplify_eq.
Qed.

Lemma exec_inv2 (st st' : state) (a : action) :
  inv st -> inv2 st -> exec a st = Some st' -> inv2 st'.
Proof.
  intros Hinv Hinv2 Hexec.
  destruct a; try (by eapply exec_session_inv2).
  all: pose proof (exec_inv _ _ _ Hinv Hexec) as Hinv'.
  all: unfold exec, step, Run, Run_func1, serve, signal_Notify in Hexec.
  all: destruct (proc st) eqn:Hproc; try done.
  all: destruct Hinv as [G1 G2 G3 G4 G5 G6 G7 G8 G9 G10 G11 G12 G13].
  all: destruct Hinv2 as [J1 J2 J3 J4 J5 J6 JR J7 J8 J9 J10 J11].
  all: rewrite Hproc in J5.
  all: try (destruct (shutdown_ok (cl st))
              as (c' & Hsh & Hw & He & Hsg & Hb & Hc & Hrdy);
            destruct (shutdown_config _ _ Hsh) as (_ & _ & Hpx & _ & _);
            rewrite chan_ready_closed in Hrdy by congruence;
            rewrite ?Hsh in Hexec).
  all: destruct st as [c0 p0 lg0 ls0 dl0 r0 sv0 w0 wc0 ss0 rf0]; simpl in *.
  all: unfold on_client, wg_Add, chan_ready, chan_recv, chan_close, chan_send,
         Fatalf, Infof, Warnf, Errorf in Hexec.
  all: repeat case_match; simplify_eq; simpl in *; bool_hyps; string_hyps.
  all: try (by destruct (inv_proc _ Hinv' _)).
  all: clear Hinv'.
  all: constructor; simpl; rewrite ?count_where_app, ?length_app; simpl;
         rewrite ?Nat.add_0_r; try done; try congruence; try lia.
  all: try (split; [done|]; eexists _, _; split; [reflexivity|]; done).
  all: try (intros ? [= <-]; split; [done|]; intros; done).
  all: try (intros ? [= <-]; split; done).
  all: try (rewrite Hpx; done).
  all: try (destruct sv0; simpl in *; try done; lia).
  all: try (intros; destruct w0; simpl in *; try done;
            by specialize (J9 ltac:(done) ltac:(done))).
  all: try (intros dl [= <-]; destruct (J10 _ eq_refl) as [Hto Hfrom];
            split; [intros Hp; by first [apply Hfrom in Hp | idtac]
                   |intros Hne; by first [eexists | destruct Hne; apply Hto]]).
  - intros dl [= <-]. destruct (J10 _ eq_refl) as [Hto _].
    split; [done|]. intros Hne. destruct Hne. by apply Hto.
  - intros Hover Hquiet. by specialize (J9 Hover Hquiet).
Qed.

Lemma reachable_inv2 (st : state) : reachable st -> inv2 st.
Proof.
  induction 1 as [st (l & t & p & d & k & ->)|a st st' Hst IH Hexec].
  - apply inv2_start.
  - eapply exec_inv2; [|done..]. by apply reachable_inv.
Qed.

Lemma exec_all_start_inv2 (l t p : string) (d k : Z)
    (acts : list action) (st : state) :
  exec_all acts (start l t p d k) = Some st -> inv2 st.
Proof. intros H. by eapply reachable_inv2, exec_all_start_reachable. Qed.


(** ** The configuration *)


Lemma session_exec_conns (a : session_action) (stop : chan unit)
    (s s' : session) (n : option Z) (l : list entry) :
  session_exec a stop s = Ok (s', n, l) ->
  accepted s' = accepted s /\ remote s' = remote s.
Proof.
  intros H.
  destruct a as [| | | | | | | | | | | | | |[]|[]|[]]; simpl in H;
    unfold chan_recv, chan_close, chan_send, connCopy_body in H;
    repeat case_match; simplify_eq; done.
Qed.

Lemma exec_config (a : action) (st st' : state) :
  exec a st = Some st' ->
  listenAddress (cl st') = listenAddress (cl st) /\
  targetAddress (cl st') = targetAddress (cl st) /\
  proxyAddress (cl st') = proxyAddress (cl st) /\
  keepAlivePeriod (cl st') = keepAlivePeriod (cl st) /\
  dialTimeout (cl st') = dialTimeout (cl st).
Proof.
  intros Hexec.
  unfold exec, step, Run, Run_func1, serve, signal_Notify in Hexec.
  destruct (proc st); try done.
  destruct a.
  all: try (destruct (shutdown (cl st)) as [c'| |] eqn:Hsh;
            [destruct (shutdown_config _ _ Hsh) as (? & ? & ? & ? & ?)| |]).
  all: unfold on_client, wg_Add, Fatalf, Infof, Warnf, Errorf in Hexec.
  all: repeat case_match; simplify_eq; state_simpl; try done.
Qed.

Lemma exec_all_config (acts : list action) :
  forall st st', exec_all acts st = Some st' ->
  listenAddress (cl st') = listenAddress (cl st) /\
  targetAddress (cl st') = targetAddress (cl st) /\
  proxyAddress (cl st') = proxyAddress (cl st) /\
  keepAlivePeriod (cl st') = keepAlivePeriod (cl st) /\
  dialTimeout (cl st') = dialTimeout (cl st).
Proof.
  induction acts as [|a acts IH]; intros st st' H; simpl in H.
  - by simplify_eq.
  - destruct (exec a st) as [st1|] eqn:Ha; [|done].
    destruct (exec_config _ _ _ Ha) as (H1 & H2 & H3 & H4 & H5).
    destruct (IH _ _ H) as (K1 & K2 & K3 & K4 & K5).
    repeat split; congruence.
Qed.

Lemma exec_retime (a : action) (st : state) (ka dt : Z) :
  exec a (retime ka dt st) = option_map (retime ka dt) (exec a st).
Proof.
  destruct st
    as [[la ta pa ka0 dt0 w e sg dn] p0 lg0 ls0 dl0 r0 sv0 w0 wc0 ss0 rf0].
  unfold exec, retime. simpl. destruct p0; try done.
  destruct a; unfold step, Run, Run_func1, serve, signal_Notify, on_client,
    shutdown, wg_Add, chan_ready, chan_recv, chan_close, chan_send; simpl;
    repeat case_match; simplify_eq; try done.
Qed.

Lemma exec_all_retime (acts : list action) (ka dt : Z) :
  forall st,
  exec_all acts (retime ka dt st) =
  option_map (retime ka dt) (exec_all acts st).
Proof.
  induction acts as [|a acts IH]; intros st; simpl; [done|].
  rewrite exec_retime. destruct (exec a st) as [st1|]; simpl; [|done].
  apply IH.
Qed.

(** X4: the two duration fields of the client are never read: a run with
    other values of the timeout and keep-alive flags executes the same
    statements and ends in the same state, the two fields apart. *)
Theorem durations_never_used (l t p : string) (d k d' k' : Z)
    (acts : list action) :
  exec_all acts (start l t p d k) =
  option_map (retime (wrap64 (d * Second)) (wrap64 (k * Second)))
    (exec_all acts (start l t p d' k')).
Proof. rewrite <- exec_all_retime. reflexivity. Qed.


(** ** Further properties of [Run] *)

(** X1: when [net.Listen] fails, [Run] logs the error with [log.Fatalf],
    which ends the process with status 1: the listener is not open, no
    dialer has been built, [serve] is never started and no connection is
    ever accepted. *)
Theorem listen_failure_is_fatal (l t p : string) (d k : Z)
    (acts : list action) (st : state) :
  exec_all acts (start l t p d k) = Some st ->
  (forall u e, proc st = Running -> run st = RunListen u ->
     exists st',
       exec (ARunListen (Some e)) st = Some st' /\
       run st' = RunFatalListen e /\
       logs st' =
         logs st ++
         [Entry FatalLevel "could not start listening: %s" [Error_ e]]) /\
  (forall e, run st = RunFatalListen e ->
     proc st = Exited 1 /\ lstn st = NotListening /\ dialer st = None /\
     srv st = ServeNotStarted /\ sessions st = [] /\ refused st = []).
Proof.
  intros Hst. pose proof (exec_all_start_inv _ _ _ _ _ _ _ Hst) as Hinv.
  split.
  - intros u e Hproc Hrun. unfold exec, step, Run. rewrite Hproc, Hrun.
    by eexists.
  - intros e Hrun.
    destruct Hinv as [G1 G2 G3 G4 G5 G6 G7 G8 G9 G10 G11 G12 G13].
    rewrite Hrun in *. simpl in *.
    assert (Hsrv : srv st = ServeNotStarted) by (by destruct (srv st)).
    destruct (G11 Hsrv) as [-> ->]. repeat split; try done; [by apply G12|].
    destruct (dialer st) as [dl|] eqn:Hd; [|done].
    rewrite bool_decide_eq_false in G9. destruct G9. by eexists.
Qed.

(** X2: [c.done] is closed exactly when [Run] has executed [c.shutdown()].
    So the branch [case <-c.done] of the first [select] of [Run] is never
    taken: [Run] leaves that [select] only by receiving a signal. *)
Theorem stop_fires_only_after_signal (l t p : string) (d k : Z)
    (acts : list action) (st : state) :
  exec_all acts (start l t p d k) = Some st ->
  ch_closed (done (cl st)) = shutdown_done (run st) /\
  (run st = RunSelect -> exec ARunSelectDone st = None) /\
  (forall a st', run st = RunSelect -> exec a st = Some st' ->
     run st' <> RunSelect ->
     a = ARunSelectSignal /\ run st' = RunShutdown /\
     exists sig, ch_buf (signal (cl st)) = sig :: ch_buf (signal (cl st'))).
Proof.
  intros Hst. pose proof (exec_all_start_inv _ _ _ _ _ _ _ Hst) as Hinv.
  pose proof (exec_all_start_inv2 _ _ _ _ _ _ _ Hst) as Hinv2.
  pose proof (i2_done _ Hinv2) as Hdone.
  pose proof (inv_done _ Hinv) as Hbuf.
  assert (Hblocked : run st = RunSelect -> chan_ready (done (cl st)) = false).
  { intros Hrun. rewrite chan_ready_closed by done. by rewrite Hdone, Hrun. }
  split; [done|]. split.
  - intros Hrun. unfold exec, step, Run. rewrite Hrun, (Hblocked Hrun).
    by destruct (proc st).
  - intros a st' Hrun Hexec Hleft.
    destruct a.
    20: { destruct (exec_session_commit _ _ _ _ Hinv Hexec)
            as (s & s' & n & lg & _ & _ & ->).
          destruct Hleft. unfold commit. by destruct n. }
    all: unfold exec, step, Run, Run_func1, serve, signal_Notify in Hexec.
    all: rewrite ?Hrun, ?(Hblocked Hrun) in Hexec.
    all: unfold on_client, wg_Add, chan_recv, chan_close, chan_send in Hexec.
    all: repeat case_match; simplify_eq; state_simpl; try done.
    + by rewrite (i2_signal_open _ Hinv2) in *.
    + split; [done|]. split; [done|]. by eexists.
Qed.


(** X12: the warning of the forced stop is logged at most once and only by
    the timer branch of the second [select].  When [Run] is past that
    [select] and no warning is in the log, the waiting goroutine has closed
    [ch]: the counter of the wait group has been zero. *)
Theorem silent_wait_means_drained (l t p : string) (d k : Z)
    (acts : list action) (st : state) :
  exec_all acts (start l t p d k) = Some st ->
  (count_where is_warn (logs st) <= 1)%nat /\
  (count_where is_warn (logs st) = 1%nat -> wait_over (run st) = true) /\
  (wait_over (run st) = true -> count_where is_warn (logs st) = 0%nat ->
   wt st = WaitEnd /\ ch_closed (wch st) = true) /\
  (forall st', proc st = Running -> run st = RunSelectWait ->
     exec ARunSelectTimeout st = Some st' ->
     count_where is_warn (logs st') = 1%nat).
Proof.
  intros Hst. pose proof (exec_all_start_inv _ _ _ _ _ _ _ Hst) as Hinv.
  pose proof (exec_all_start_inv2 _ _ _ _ _ _ _ Hst) as Hinv2.
  split; [apply Hinv2|]. split; [apply Hinv2|]. split.
  - intros Hover Hquiet. pose proof (i2_silent _ Hinv2 Hover Hquiet) as Hwt.
    split; [done|]. by rewrite (inv_wch_closed _ Hinv), Hwt.
  - intros st' Hproc Hrun Hexec.
    pose proof (i2_warn_late _ Hinv2) as Hlate. rewrite Hrun in Hlate.
    pose proof (i2_warn_once _ Hinv2) as Honce.
    unfold exec, step, Run in Hexec. rewrite Hproc, Hrun in Hexec.
    simplify_eq. state_simpl. rewrite count_where_app. simpl.
    destruct (count_where is_warn (logs st)) as [|[|n]]; [done| |lia].
    by specialize (Hlate eq_refl).
Qed.

(** ** Further properties of [serve] and of the wait *)

Lemma closed_listener_step (a : action) (st st' : state) :
  inv st -> lstn st = ListenerClosed -> exec a st = Some st' ->
  lstn st' = ListenerClosed /\
  (length (sessions st') + in_setup (srv st') <=
   length (sessions st) + in_setup (srv st))%nat.
Proof.
  intros Hinv Hl Hexec.
  destruct a.
  20: { destruct (exec_session_commit _ _ _ _ Hinv Hexec)
          as (s & s' & n & lg & _ & _ & ->).
        unfold commit. destruct n; state_simpl; by rewrite length_insert. }
  all: pose proof (inv_lstn _ Hinv) as Hat; rewrite Hl in Hat.
  all: unfold exec, step, Run, Run_func1, serve, signal_Notify in Hexec.
  all: unfold on_client, wg_Add, chan_recv, chan_close, chan_send,
         shutdown, chan_ready, Fatalf, Infof, Warnf, Errorf in Hexec.
  all: repeat case_match; simplify_eq; state_simpl;
         rewrite ?length_app; simpl in *; try done; try lia.
  all: split; [done|lia].
Qed.

(** X6: once [Run] has closed the listener, [Accept] gives [serve] no
    further connection, so at most the one connection [serve] already holds
    still becomes a session; and when [serve] comes back to [Accept], the
    error it gets there ends the process through [log.Fatalf]. *)
Theorem closed_listener_stops_accepts (l t p : string) (d k : Z)
    (acts more : list action) (st st' : state) :
  exec_all acts (start l t p d k) = Some st ->
  lstn st = ListenerClosed ->
  exec_all more st = Some st' ->
  lstn st' = ListenerClosed /\
  (length (sessions st') + in_setup (srv st') <=
   length (sessions st) + in_setup (srv st))%nat /\
  (forall c, exec (AServeAccept (inl c)) st' = None) /\
  (forall r st'', srv st' = ServeAccept ->
     exec (AServeAccept r) st' = Some st'' ->
     proc st'' = Exited 1 /\ sessions st'' = sessions st').
Proof.
  intros Hst Hl Hmore.
  pose proof (exec_all_start_reachable _ _ _ _ _ _ _ Hst) as Hreach.
  assert (Hstep : lstn st' = ListenerClosed /\
                  (length (sessions st') + in_setup (srv st') <=
                   length (sessions st) + in_setup (srv st))%nat).
  { clear Hst. revert st Hreach Hl Hmore.
    induction more as [|a more IH]; intros st Hreach Hl Hmore; simpl in Hmore.
    - by simplify_eq.
    - destruct (exec a st) as [st1|] eqn:Ha; [|done].
      destruct (closed_listener_step _ _ _ (reachable_inv _ Hreach) Hl Ha)
        as [Hl1 Hle1].
      destruct (IH st1 (reachable_exec _ _ _ Hreach Ha) Hl1 Hmore) as [? ?].
      split; [done|lia]. }
  destruct Hstep as [Hl' Hle]. split; [done|]. split; [done|]. split.
  - intros c. unfold exec, step, serve. rewrite Hl'.
    by repeat case_match.
  - intros r st'' Hsrv Hexec. unfold exec, step, serve in Hexec.
    rewrite Hsrv, Hl' in Hexec.
    destruct (proc st'); try done. destruct r; by simplify_eq.
Qed.

Lemma sum_list_with_zero {A : Type} (f : A -> nat) (l : list A) :
  sum_list_with f l = 0%nat -> Forall (fun x => f x = 0%nat) l.
Proof.
  induction l as [|x l IH]; simpl; intros H; constructor; [lia|].
  apply IH. lia.
Qed.

Lemma outstanding_zero_finished (stop : chan unit) (s : session) :
  session_inv stop s -> outstanding s = 0%nat -> all_finished s = true.
Proof.
  intros Hinv. pose proof (si_dc _ _ Hinv) as Hd.
  unfold outstanding, all_finished, holds, finished.
  destruct (hc s); simpl in *; try lia;
    destruct (dc s); simpl in *; try done; try lia;
    destruct (cc_out s); simpl in *; try lia;
    destruct (cc_in s); simpl in *; try lia; done.
Qed.

(** X7: the waiting goroutine of [Run] gets past [c.wg.Wait()] only in a
    state where the counter is zero, and then [serve] has no session pending
    and every task of every session started so far has ended. *)
Theorem Wait_returns_when_all_ended (l t p : string) (d k : Z)
    (acts : list action) (st st' : state) :
  exec_all acts (start l t p d k) = Some st ->
  exec AWaitWait st = Some st' ->
  wg (cl st) = 0 /\
  pending_spawn (srv st) = 0%nat /\
  Forall (fun s => all_finished s = true) (sessions st) /\
  wt st' = WaitClose.
Proof.
  intros Hst Hexec. pose proof (exec_all_start_inv _ _ _ _ _ _ _ Hst) as Hinv.
  unfold exec, step, Run_func1 in Hexec.
  repeat case_match; simplify_eq. bool_hyps.
  pose proof (inv_wg _ Hinv) as Hwg.
  split; [done|]. split; [lia|]. split; [|done].
  assert (Hsum : sum_list_with outstanding (sessions st) = 0%nat) by lia.
  apply sum_list_with_zero in Hsum.
  pose proof (inv_sessions _ Hinv) as Hs.
  rewrite Forall_forall in *. intros s Hin.
  by eapply outstanding_zero_finished; [apply Hs|apply Hsum].
Qed.

(** X8: every connection [Accept] has given to [serve] is accounted for: it
    is the connection of a session, or it was closed after a failed dial, or
    [serve] holds it between [Accept] and [go c.handleConn]; and the
    connections closed after a failed dial are as many as the dial errors in
    the log. *)
Theorem accepted_connections_accounted (l t p : string) (d k : Z)
    (acts : list action) (st : state) :
  exec_all acts (start l t p d k) = Some st ->
  count_where is_accept_entry (logs st) =
    (length (sessions st) + length (refused st) + in_setup (srv st))%nat /\
  count_where is_dial_error (logs st) = length (refused st).
Proof.
  intros Hst. pose proof (exec_all_start_inv2 _ _ _ _ _ _ _ Hst) as Hinv2.
  split; apply Hinv2.
Qed.


(** ** Further properties of the sessions, the dialer and [main] *)

(** X11: a statement of a goroutine of session [i] changes that session,
    the counter of the wait group and the log, and nothing else: not the
    listener, the dialer, the channels of the client, the other goroutines
    or any other session; and the two connections of the session stay the
    ones it was started with. *)
Theorem session_step_is_local (l t p : string) (d k : Z)
    (acts : list action) (st st' : state) (i : nat) (a : session_action) :
  exec_all acts (start l t p d k) = Some st ->
  exec (ASession i a) st = Some st' ->
  proc st' = Running /\
  lstn st' = lstn st /\ dialer st' = dialer st /\
  run st' = run st /\ srv st' = srv st /\ wt st' = wt st /\
  wch st' = wch st /\ refused st' = refused st /\
  done (cl st') = done (cl st) /\ errChan (cl st') = errChan (cl st) /\
  signal (cl st') = signal (cl st) /\
  length (sessions st') = length (sessions st) /\
  (forall j, j <> i -> sessions st' !! j = sessions st !! j) /\
  exists s s',
    sessions st !! i = Some s /\ sessions st' !! i = Some s' /\
    accepted s' = accepted s /\ remote s' = remote s.
Proof.
  intros Hst Hexec. pose proof (exec_all_start_inv _ _ _ _ _ _ _ Hst) as Hinv.
  assert (Hproc : proc st = Running).
  { unfold exec in Hexec. by destruct (proc st). }
  destruct (exec_session_commit _ _ _ _ Hinv Hexec)
    as (s & s' & n & lg & Hi & Hse & ->).
  destruct (session_exec_conns _ _ _ _ _ _ Hse) as [Ha Hr].
  destruct (commit_facts st i s s' n lg Hi) as (Hp & Hi' & _ & Hd & _).
  split; [congruence|].
  unfold commit in *.
  destruct n; state_simpl; rewrite length_insert;
    (repeat split; try done;
     [intros j Hj; by rewrite list_lookup_insert_ne
     |by exists s, s']).
Qed.



(** X10: [main] prints the usage and starts nothing exactly when help is
    asked for or the target or the listen address is missing; otherwise it
    starts [Run] on a client that keeps the three addresses of the flags for
    as long as the process lives, the listen and the target address being
    non-empty. *)
Theorem main_needs_both_addresses (f : Main.flags) :
  (Main.main f = None <->
   Main.showHelp f = true \/ Main.targetAddr f = EmptyString \/
   Main.listenAddr f = EmptyString) /\
  (forall st0 acts st,
     Main.main f = Some st0 -> exec_all acts st0 = Some st ->
     listenAddress (cl st) = Main.listenAddr f /\
     targetAddress (cl st) = Main.targetAddr f /\
     proxyAddress (cl st) = Main.proxyAddr f /\
     listenAddress (cl st) <> EmptyString /\
     targetAddress (cl st) <> EmptyString).
Proof.
  unfold Main.main.
  destruct (Main.showHelp f) eqn:Hh;
    destruct (String.eqb_spec (Main.targetAddr f) EmptyString) as [Ht|Ht];
    destruct (String.eqb_spec (Main.listenAddr f) EmptyString) as [Hl|Hl];
    simpl; (split; [split; [auto|try done; intros [?|[?|?]]; done]|]);
    try done.
  intros st0 acts st [= <-] Hexec.
  destruct (exec_all_config _ _ _ Hexec) as (-> & -> & -> & _ & _).
  done.
Qed.






(** ** The further properties at concrete runs *)

Example main_without_flags : Main.main Main.init = None.
Proof. reflexivity. Qed.

Lemma listen_failure_is_fatal_witness :
  proc st_listen_failure = Exited 1 /\
  lstn st_listen_failure = NotListening /\
  dialer st_listen_failure = None /\
  srv st_listen_failure = ServeNotStarted /\
  sessions st_listen_failure = [] /\ refused st_listen_failure = [].
Proof.
  apply (listen_failure_is_fatal ":80" "10.10.34.35:80" EmptyString 10 30
           to_listen_failure st_listen_failure
           ltac:(vm_compute; reflexivity)) with (e := listen_refused).
  reflexivity.
Defined.

Lemma stop_fires_only_after_signal_witness :
  ch_closed (done (cl st_serve)) = false /\
  exec ARunSelectDone st_serve = None.
Proof.
  destruct (stop_fires_only_after_signal ":80" "10.10.34.35:80" EmptyString
              10 30 to_serve st_serve ltac:(vm_compute; reflexivity))
    as (Hdone & Hdead & _).
  split; [exact Hdone|]. apply Hdead. reflexivity.
Defined.



Lemma closed_listener_stops_accepts_witness :
  lstn st_signalled = ListenerClosed /\
  forall c, exec (AServeAccept (inl c)) st_signalled = None.
Proof.
  destruct (closed_listener_stops_accepts ":80" "10.10.34.35:80" EmptyString
              10 30 to_recv_err [ASignal Kill] st_recv_err st_signalled
              ltac:(vm_compute; reflexivity) eq_refl
              ltac:(vm_compute; reflexivity))
    as (Hl & _ & Hnone & _).
  split; [exact Hl|exact Hnone].
Defined.

Lemma Wait_returns_when_all_ended_witness :
  wg (cl st_drained) = 0 /\
  Forall (fun s => all_finished s = true) (sessions st_drained).
Proof.
  destruct (Wait_returns_when_all_ended ":80" "10.10.34.35:80" EmptyString
              10 30 to_drained st_drained (set_wt WaitClose st_drained)
              ltac:(vm_compute; reflexivity) ltac:(vm_compute; reflexivity))
    as (Hwg & _ & Hall & _).
  split; [exact Hwg|exact Hall].
Defined.

Lemma accepted_connections_accounted_witness :
  count_where is_accept_entry (logs st_dial) =
    (length (sessions st_dial) + length (refused st_dial)
     + in_setup (srv st_dial))%nat /\
  count_where is_dial_error (logs st_dial) = length (refused st_dial).
Proof.
  apply (accepted_connections_accounted ":80" "10.10.34.35:80" EmptyString
           10 30 to_dial st_dial).
  vm_compute. reflexivity.
Defined.


Lemma main_needs_both_addresses_witness :
  listenAddress (cl st_dial) = ":80" /\
  targetAddress (cl st_dial) = "10.10.34.35:80" /\
  proxyAddress (cl st_dial) = EmptyString /\
  listenAddress (cl st_dial) <> EmptyString /\
  targetAddress (cl st_dial) <> EmptyString.
Proof.
  destruct (main_needs_both_addresses flags_direct) as [_ Hrun].
  apply (Hrun direct to_dial st_dial); [reflexivity|].
  vm_compute. reflexivity.
Defined.

Lemma session_step_is_local_witness :
  proc st_received = Running /\
  run st_received = run st_first_sent /\
  srv st_received = srv st_first_sent /\
  done (cl st_received) = done (cl st_first_sent) /\
  length (sessions st_received) = length (sessions st_first_sent).
Proof.
  destruct (session_step_is_local ":80" "10.10.34.35:80" EmptyString 10 30
              to_first_sent st_first_sent st_received 0 ADCRecv
              ltac:(vm_compute; reflexivity) ltac:(vm_compute; reflexivity))
    as (H1 & _ & _ & H2 & H3 & _ & _ & _ & H4 & _ & _ & H5 & _).
  repeat split; assumption.
Defined.

Lemma silent_wait_means_drained_witness :
  wt st_recv_err = WaitEnd /\ ch_closed (wch st_recv_err) = true.
Proof.
  apply (silent_wait_means_drained ":80" "10.10.34.35:80" EmptyString 10 30
           to_recv_err st_recv_err ltac:(vm_compute; reflexivity));
    reflexivity.
Defined.


